(** * server/index.ts: bootstrap, request instrumentation and shutdown

    A shallow embedding of [src/server/index.ts].  The file wires an
    Express application: production-only middleware, a request logger,
    the terminal error middleware, the choice between the Vite
    development pipeline and static serving, and signal handling.

    Conventions.
    - [process.env] is a finite map from variable names to strings; a
      variable that is not set reads as [None] (JavaScript [undefined]).
      A value is held as the bytes of its UTF-8 form.
    - A JavaScript string whose [length] matters is a list of UTF-16
      code units ([jsstring]); [js] embeds an ASCII literal.
    - Collaborators that live outside the file (Express routing, the
      rate-limit package, the HTTP server, Vite) are modelled by their
      documented behaviour, each in a module of its own. *)

From Stdlib Require Import ZArith NArith List Bool Ascii String Lia.
From Stdlib Require Import DecimalString DecimalNat.
From stdpp Require Import base option gmap strings list.
Import ListNotations.

Local Open Scope Z_scope.

(* ===================================================================== *)
(** ** JavaScript values used by the file                                  *)
(* ===================================================================== *)

Module JS.

(** A string as a sequence of UTF-16 code units; [length] is [.length]. *)
Definition jsstring := list N.

(** An ASCII literal of the source, as code units. *)
Definition js (s : string) : jsstring :=
  List.map N_of_ascii (list_ascii_of_string s).

(** U+2026 HORIZONTAL ELLIPSIS: one UTF-16 code unit. *)
Definition ellipsis : jsstring := [8230%N].

(** [String.prototype.startsWith]. *)
Fixpoint startsWith (s p : jsstring) : bool :=
  match p, s with
  | [], _ => true
  | _ :: _, [] => false
  | b :: p', a :: s' => N.eqb a b && startsWith s' p'
  end.

(** [String.prototype.slice(0, n)] for [0 <= n]. *)
Definition slice0 (n : nat) (s : jsstring) : jsstring := firstn n s.

(** Template-literal rendering of an integral number below 1e21 in
    magnitude (status codes, durations and ports are far below). *)
Definition dec (z : Z) : jsstring :=
  js (NilZero.string_of_int (Z.to_int z)).

(** Truthiness of a value read from [process.env]: [undefined] and the
    empty string are falsy. *)
Definition truthy_env (v : option string) : bool :=
  match v with
  | Some s => negb (String.eqb s "")
  | None => false
  end.

(** [v || d] for an optional string [v] and a string literal [d]. *)
Definition or_env (v : option string) (d : string) : string :=
  match v with
  | Some s => if String.eqb s "" then d else s
  | None => d
  end.

(** [a || b] where [a] is an optional number: [undefined] and [0] are
    falsy. *)
Definition or_num (a : option Z) (b : Z) : Z :=
  match a with
  | Some z => if Z.eqb z 0 then b else z
  | None => b
  end.

(** [a || b] where [a] is an optional string with [length]. *)
Definition or_str (a : option jsstring) (b : jsstring) : jsstring :=
  match a with
  | Some (c :: s) => c :: s
  | _ => b
  end.

(** JSON trees as handed to [res.json]; numbers are integral. *)
#[warnings="-register-all"] Inductive json :=
| JNull
| JBool (b : bool)
| JNum (z : Z)
| JStr (s : jsstring)
| JArr (items : list json)
| JObj (props : list (jsstring * json)).

(** Truthiness of such a value, as tested by [if (captured)]. *)
Definition truthy (j : json) : bool :=
  match j with
  | JNull => false
  | JBool b => b
  | JNum z => negb (Z.eqb z 0)
  | JStr s => match s with [] => false | _ => true end
  | JArr _ | JObj _ => true
  end.

Definition hexdigit (n : N) : N :=
  if (n <? 10)%N then (48 + n)%N else (87 + n)%N.

(** [\uXXXX] with four lower-case hexadecimal digits. *)
Definition uescape (c : N) : jsstring :=
  js "\u" ++ [hexdigit (N.land (N.shiftr c 12) 15);
              hexdigit (N.land (N.shiftr c 8) 15);
              hexdigit (N.land (N.shiftr c 4) 15);
              hexdigit (N.land c 15)].

Definition is_lead (c : N) : bool := (55296 <=? c)%N && (c <=? 56319)%N.
Definition is_trail (c : N) : bool := (56320 <=? c)%N && (c <=? 57343)%N.

(** One code unit that is not part of a surrogate pair. *)
Definition escape1 (c : N) : jsstring :=
  if (c =? 8)%N then js "\b"
  else if (c =? 9)%N then js "\t"
  else if (c =? 10)%N then js "\n"
  else if (c =? 12)%N then js "\f"
  else if (c =? 13)%N then js "\r"
  else if (c =? 34)%N then [92%N; 34%N]
  else if (c =? 92)%N then [92%N; 92%N]
  else if (c <? 32)%N then uescape c
  else [c].

(** The body of [QuoteJSONString]: well-formed pairs are kept, lone
    surrogates are escaped. *)
Fixpoint escape (s : jsstring) : jsstring :=
  match s with
  | [] => []
  | c :: r =>
      if is_lead c then
        match r with
        | d :: r' =>
            if is_trail d then c :: d :: escape r'
            else uescape c ++ escape r
        | [] => uescape c
        end
      else if is_trail c then uescape c ++ escape r
      else escape1 c ++ escape r
  end.

Definition quote (s : jsstring) : jsstring := [34%N] ++ escape s ++ [34%N].

(** [JSON.stringify] without indentation. *)
Fixpoint stringify (j : json) : jsstring :=
  match j with
  | JNull => js "null"
  | JBool true => js "true"
  | JBool false => js "false"
  | JNum z => dec z
  | JStr s => quote s
  | JArr items =>
      js "[" ++
      (fix items_str (l : list json) : jsstring :=
         match l with
         | [] => []
         | x :: r =>
             stringify x ++
             match r with [] => [] | _ :: _ => js "," ++ items_str r end
         end) items ++ js "]"
  | JObj props =>
      js "{" ++
      (fix props_str (l : list (jsstring * json)) : jsstring :=
         match l with
         | [] => []
         | (k, v) :: r =>
             quote k ++ js ":" ++ stringify v ++
             match r with [] => [] | _ :: _ => js "," ++ props_str r end
         end) props ++ js "}"
  end.

(** A thrown object, as far as the file inspects it. *)
Record error := mkError {
  err_name : option jsstring;
  err_message : option jsstring;
  err_status : option Z;
  err_statusCode : option Z
}.

(** [`${x}`] for an optional string: [undefined] prints as such. *)
Definition show_opt (x : option jsstring) : jsstring :=
  match x with Some s => s | None => js "undefined" end.

(** [Error.prototype.toString]. *)
Definition error_toString (e : error) : jsstring :=
  let name := match err_name e with Some n => n | None => js "Error" end in
  let msg := match err_message e with Some m => m | None => [] end in
  match name, msg with
  | [], _ => msg
  | _, [] => name
  | _, _ => name ++ js ": " ++ msg
  end.

End JS.
Import JS.

(* ===================================================================== *)
(** ** The environment and the mode decision (lines 13, 89-94, 171)        *)
(* ===================================================================== *)

Module Env.

Abbreviation env := (gmap string string).

Definition NODE_ENV (e : env) : option string := e !! "NODE_ENV"%string.
Definition PORT (e : env) : option string := e !! "PORT"%string.
Definition REPL_ID (e : env) : option string := e !! "REPL_ID"%string.

(** [x === "lit"] for a value read from the environment. *)
Definition is_lit (v : option string) (lit : string) : bool :=
  bool_decide (v = Some lit).

(** Line 13: the guard of the security, compression and rate-limit
    middleware. *)
Definition productionFlag (e : env) : bool :=
  is_lit (NODE_ENV e) "production".

(** Lines 89-92. *)
Definition isProduction (e : env) : bool :=
  is_lit (NODE_ENV e) "production"
  || is_lit (PORT e) "5000"
  || is_lit (PORT e) "8080"
  || negb (truthy_env (REPL_ID e)).

(** Express sets the application setting ["env"] to
    [process.env.NODE_ENV || "development"] when the app is created. *)
Definition app_get_env (e : env) : string :=
  or_env (NODE_ENV e) "development".

(** Line 94: the guard of the Vite branch. *)
Definition devBranch (e : env) : bool :=
  negb (isProduction e) && bool_decide (app_get_env e = "development"%string).

(** The two modes the decision at lines 89-92 distinguishes. *)
Inductive ServerMode := Development | Production.

Definition serverMode (e : env) : ServerMode :=
  if isProduction e then Production else Development.

End Env.
Import Env.

(* ===================================================================== *)
(** ** express-rate-limit, as configured at lines 27-31                    *)
(* ===================================================================== *)

Module RateLimit.

Record options := mkOptions {
  windowMs : Z;
  max : nat;
  message : jsstring
}.

(** Lines 27-31. *)
Definition limiter : options :=
  {| windowMs := 15 * 60 * 1000;
     max := 100;
     message :=
       js "Too many requests from this IP, please try again later." |}.

(** The memory store keeps, per client key, the hits of the current
    window and the time at which that window ends. *)
Record client := mkClient { totalHits : nat; resetTime : Z }.

Abbreviation store := (gmap jsstring client).

Definition current (o : options) (st : store) (key : jsstring) (now : Z)
  : client :=
  match st !! key with
  | Some c =>
      if resetTime c <=? now
      then {| totalHits := 0; resetTime := now + windowMs o |}
      else c
  | None => {| totalHits := 0; resetTime := now + windowMs o |}
  end.

Definition increment (o : options) (st : store) (key : jsstring) (now : Z)
  : store * nat :=
  let c := current o st key now in
  let c' := {| totalHits := S (totalHits c); resetTime := resetTime c |} in
  (<[key := c']> st, totalHits c').

(** What the middleware does with a request: call [next()], or answer
    with the configured status and message and stop. *)
Inductive verdict :=
| Next
| TooMany (status : Z) (body : jsstring).

Definition handle (o : options) (st : store) (key : jsstring) (now : Z)
  : store * verdict :=
  let '(st', hits) := increment o st key now in
  (st', if (max o <? hits)%nat then TooMany 429 (message o) else Next).

End RateLimit.

(* ===================================================================== *)
(** ** The request logger (lines 38-66)                                    *)
(* ===================================================================== *)

Module Logger.

(** Lines 44-47: every [res.json(body)] overwrites the captured body. *)
Definition capture (calls : list json) : option json :=
  fold_left (fun _ body => Some body) calls None.

(** Lines 52-55. *)
Definition buildLine (method path : jsstring) (statusCode duration : Z)
    (captured : option json) : jsstring :=
  let logLine :=
    method ++ js " " ++ path ++ js " " ++ dec statusCode ++
    js " in " ++ dec duration ++ js "ms" in
  match captured with
  | Some body =>
      if truthy body then logLine ++ js " :: " ++ stringify body
      else logLine
  | None => logLine
  end.

(** Lines 57-59. *)
Definition truncate (logLine : jsstring) : jsstring :=
  if (80 <? length logLine)%nat then slice0 79 logLine ++ ellipsis
  else logLine.

(** Lines 49-63: the listener of the response's [finish] event; the
    result is the list of [log] calls it makes. *)
Definition onFinish (method path : jsstring) (statusCode start finish : Z)
    (captured : option json) : list jsstring :=
  let duration := finish - start in
  if startsWith path (js "/api")
  then [truncate (buildLine method path statusCode duration captured)]
  else [].

End Logger.

(* ===================================================================== *)
(** ** One request through the middleware of lines 13-66                   *)
(* ===================================================================== *)

Module Pipeline.

(** A request as the stack sees it.  [jsonError] and [urlencodedError]
    are the errors with which [express.json] and [express.urlencoded]
    reject the body (malformed, or over the 10mb limit), if they do. *)
Record request := mkRequest {
  method : jsstring;
  path : jsstring;
  ip : jsstring;
  jsonError : option error;
  urlencodedError : option error
}.

Inductive middleware :=
| Helmet
| Compression
| RateLimiter (mount : jsstring) (o : RateLimit.options)
| JsonParser
| UrlencodedParser
| RequestLogger.

(** Lines 13-38: the stack in registration order. *)
Definition stack (e : env) : list middleware :=
  (if productionFlag e
   then [Helmet; Compression; RateLimiter (js "/api") RateLimit.limiter]
   else [])
  ++ [JsonParser; UrlencodedParser; RequestLogger].

Definition upper (c : N) : N :=
  if (97 <=? c)%N && (c <=? 122)%N then (c - 32)%N else c.

(** Express matches the mount path of [app.use(mount, fn)] without
    regard to ASCII case, and only up to a segment boundary. *)
Fixpoint mountMatch (mount p : jsstring) : bool :=
  match mount, p with
  | [], [] => true
  | [], c :: _ => N.eqb c 47
  | _ :: _, [] => false
  | m :: mount', c :: p' => N.eqb (upper m) (upper c) && mountMatch mount' p'
  end.

(** The state a request leaves behind while it walks the stack:
    the limiter's answer if it gave one, the error handed to
    [next(err)] if a parser did so, whether the logger installed its
    listener, and whether the routes were reached. *)
Record walk := mkWalk {
  store_after : RateLimit.store;
  limited : option (Z * jsstring);
  failed : option error;
  logger_armed : bool;
  reached_routes : bool
}.

(** Helmet and compression call [next()]; the limiter answers on its
    own when the client is over the limit; a body parser that rejects
    the body calls [next(err)], which skips every later stage that is
    not an error handler; the logger installs its [finish] listener and
    calls [next()]. *)
Fixpoint run (stk : list middleware) (req : request) (now : Z)
    (st : RateLimit.store) (armed : bool) : walk :=
  match stk with
  | [] => mkWalk st None None armed true
  | RateLimiter mount o :: rest =>
      if mountMatch mount (path req) then
        match RateLimit.handle o st (ip req) now with
        | (st', RateLimit.TooMany status body) =>
            mkWalk st' (Some (status, body)) None armed false
        | (st', RateLimit.Next) => run rest req now st' armed
        end
      else run rest req now st armed
  | JsonParser :: rest =>
      match jsonError req with
      | Some err => mkWalk st None (Some err) armed false
      | None => run rest req now st armed
      end
  | UrlencodedParser :: rest =>
      match urlencodedError req with
      | Some err => mkWalk st None (Some err) armed false
      | None => run rest req now st armed
      end
  | RequestLogger :: rest => run rest req now st true
  | (Helmet | Compression) :: rest => run rest req now st armed
  end.

(** The error of the first body parser that rejects the body. *)
Definition bodyError (req : request) : option error :=
  match jsonError req with
  | Some err => Some err
  | None => urlencodedError req
  end.

(** The walk of a request that the limiter did not answer. *)
Definition parsed (st : RateLimit.store) (req : request) : walk :=
  match bodyError req with
  | Some err => mkWalk st None (Some err) false false
  | None => mkWalk st None None true true
  end.

(** What the stages after the logger do with the response. *)
Record handling := mkHandling {
  json_calls : list json;
  statusCode : Z;
  finish : option Z
}.

(** The lines the Request Logger hands to [log] for one request that
    arrives at [now]. *)
Definition logged (w : walk) (req : request) (now : Z) (h : handling)
  : list jsstring :=
  if logger_armed w then
    match finish h with
    | Some t =>
        Logger.onFinish (method req) (path req) (statusCode h) now t
          (Logger.capture (json_calls h))
    | None => []
    end
  else [].

(** A request served by a process started in environment [e]. *)
Definition serve (e : env) (st : RateLimit.store) (req : request)
    (now : Z) (h : handling) : walk * list jsstring :=
  let w := run (stack e) req now st false in
  (w, logged w req now h).

(** What an observer sees of one request: the limiter's answer if it
    gave one, the parser's error if there was one, whether the routes
    were reached, and the logger's lines. *)
Record seen := mkSeen {
  answer : option (Z * jsstring);
  failure : option error;
  routed : bool;
  lines : list jsstring
}.

(** A burst of requests, threading the limiter's store. *)
Fixpoint burst (e : env) (st : RateLimit.store)
    (reqs : list (request * Z * handling)) : list seen :=
  match reqs with
  | [] => []
  | (req, now, h) :: rest =>
      let '(w, ls) := serve e st req now h in
      mkSeen (limited w) (failed w) (reached_routes w) ls
      :: burst e (store_after w) rest
  end.

(** The client has no window running at time [t]. *)
Definition window_free (st : RateLimit.store) (client : jsstring) (t : Z)
  : Prop :=
  match st !! client with
  | Some c => RateLimit.resetTime c <= t
  | None => True
  end.

(** A request of [client] on the [/api] mount path, inside the window
    of [o] that starts at [t1]. *)
Definition in_window (o : RateLimit.options) (client : jsstring) (t1 : Z)
    (x : request * Z * handling) : Prop :=
  ip x.1.1 = client /\
  mountMatch (js "/api") (path x.1.1) = true /\
  t1 <= x.1.2 < t1 + RateLimit.windowMs o.

(** Requests of one client that open a window at [t1] and stay in it. *)
Definition one_window (o : RateLimit.options) (client : jsstring) (t1 : Z)
    (reqs : list (request * Z * handling)) : Prop :=
  match reqs with
  | [] => True
  | x :: _ => x.1.2 = t1
  end /\ Forall (in_window o client t1) reqs.

End Pipeline.

(* ===================================================================== *)
(** ** The terminal error middleware (lines 78-84)                         *)
(* ===================================================================== *)

Module ErrorMiddleware.

(** What the handler does, in order.  [Breaks] stands for the call
    [res.status(status).json(...)] throwing an error of its own: no body
    is sent and the statement after it is not reached. *)
Inductive effect :=
| ResStatus (status : Z)
| ResJson (body : json)
| Throw (err : error)
| Breaks.

Definition statusOf (err : error) : Z :=
  or_num (err_status err) (or_num (err_statusCode err) 500).

Definition messageOf (err : error) : jsstring :=
  or_str (err_message err) (js "Internal Server Error").

(** [status | 0]: the HTTP layer takes the status as a 32-bit integer. *)
Definition toInt32 (status : Z) : Z :=
  (status + 2147483648) mod 4294967296 - 2147483648.

(** The status codes a response can be sent with: those that, taken
    as a 32-bit integer, lie within 100 and 999. *)
Definition validStatus (status : Z) : bool :=
  (100 <=? toInt32 status) && (toInt32 status <=? 999).

(** Lines 79-83, as the sequence of things the handler does.
    [headersSent] tells whether the response was already started when
    the error reached the handler.  A response that was started, or a
    status that cannot be sent, makes the call of line 82 throw. *)
Definition handler (headersSent : bool) (err : error) : list effect :=
  let status := statusOf err in
  let message := messageOf err in
  if headersSent || negb (validStatus status) then [Breaks]
  else
    [ResStatus status; ResJson (JObj [(js "message", JStr message)]);
     Throw err].

End ErrorMiddleware.

(* ===================================================================== *)
(** ** A route that raises: the error middleware meets the logger          *)
(* ===================================================================== *)

Module Exchange.



End Exchange.

(* ===================================================================== *)
(** ** The Vite catch-all route (lines 140-155)                            *)
(* ===================================================================== *)

Module Vite.

Inductive result (A : Type) :=
| Ok (a : A)
| Err (e : error).
Arguments Ok {A} a.
Arguments Err {A} e.

(** [s.replace(pat, rep)] for string arguments: the first occurrence
    only; [rep] holds no [$]. *)
Fixpoint replaceFirst (s pat rep : jsstring) : jsstring :=
  match s with
  | [] => match pat with [] => rep | _ :: _ => [] end
  | c :: s' =>
      if startsWith s pat then rep ++ skipn (length pat) s
      else c :: replaceFirst s' pat rep
  end.

Definition dquote : jsstring := [34%N].

Inductive effect :=
| Respond (status : Z) (contentType : jsstring) (body : jsstring)
| SsrFixStacktrace (e : error)
| NextErr (e : error).

(** Lines 140-155.  [readFile] is the outcome of reading
    [client/index.html], [nanoid] the fresh token, and
    [transformIndexHtml] the pipeline's HTML post-processor. *)
Definition catchAll (url : jsstring) (readFile : result jsstring)
    (nanoid : jsstring)
    (transformIndexHtml : jsstring -> jsstring -> result jsstring)
  : list effect :=
  match readFile with
  | Err e => [SsrFixStacktrace e; NextErr e]
  | Ok template =>
      let template :=
        replaceFirst template
          (js "src=" ++ dquote ++ js "/src/main.tsx" ++ dquote)
          (js "src=" ++ dquote ++ js "/src/main.tsx?v=" ++ nanoid) in
      match transformIndexHtml url template with
      | Ok page => [Respond 200 (js "text/html") page]
      | Err e => [SsrFixStacktrace e; NextErr e]
      end
  end.

End Vite.

(* ===================================================================== *)
(** ** The process: start-up, signals, timers, exit (lines 68-209)         *)
(* ===================================================================== *)

Module Process.

Inductive adapter := NoAdapter | ViteDev | Static.

(** [now] is the event loop's clock in milliseconds; [timers] holds
    the deadlines of the pending [setTimeout] calls of line 189;
    [closeCallbacks] counts the callbacks handed to [server.close];
    [exited] is the status given to [process.exit], once called. *)
Record proc := mkProc {
  now : N;
  log : list jsstring;
  console : list error;
  viteLog : list jsstring;
  content : adapter;
  listenPort : option (option Z);
  listening : bool;
  closeRequested : bool;
  closeCallbacks : nat;
  timers : list N;
  exited : option Z
}.

Definition initial : proc :=
  mkProc 0 [] [] [] NoAdapter None false false 0 [] None.

(** Modelled from the spec: [log] of ./vite, which is not part of the
    sources at hand; the process-wide log output is append-only. *)
Definition logMsg (m : jsstring) (p : proc) : proc :=
  mkProc (now p) (log p ++ [m]) (console p) (viteLog p) (content p)
    (listenPort p) (listening p) (closeRequested p) (closeCallbacks p)
    (timers p) (exited p).

Definition consoleError (e : error) (p : proc) : proc :=
  mkProc (now p) (log p) (console p ++ [e]) (viteLog p) (content p)
    (listenPort p) (listening p) (closeRequested p) (closeCallbacks p)
    (timers p) (exited p).

Definition viteLoggerError (m : jsstring) (p : proc) : proc :=
  mkProc (now p) (log p) (console p) (viteLog p ++ [m]) (content p)
    (listenPort p) (listening p) (closeRequested p) (closeCallbacks p)
    (timers p) (exited p).

Definition setContent (a : adapter) (p : proc) : proc :=
  mkProc (now p) (log p) (console p) (viteLog p) a
    (listenPort p) (listening p) (closeRequested p) (closeCallbacks p)
    (timers p) (exited p).

(** Modelled from the spec: [serveStatic] of ./vite, which is not part
    of the sources at hand; it installs the static-asset server with
    its catch-all fallback to the application shell. *)
Definition serveStatic (p : proc) : proc := setContent Static p.

Definition processExit (code : Z) (p : proc) : proc :=
  mkProc (now p) (log p) (console p) (viteLog p) (content p)
    (listenPort p) (listening p) (closeRequested p) (closeCallbacks p)
    (timers p) (Some code).

(** [server.listen({ port, ... }, cb)]: the call is recorded; for a
    legal port, whether the bind succeeds is the environment's (event
    [Bound]). *)
Definition serverListen (port : option Z) (p : proc) : proc :=
  mkProc (now p) (log p) (console p) (viteLog p) (content p)
    (Some port) (listening p) (closeRequested p) (closeCallbacks p)
    (timers p) (exited p).

(** [server.close(cb)]: stop accepting connections and keep [cb] for
    the server's [close] event. *)
Definition serverClose (p : proc) : proc :=
  mkProc (now p) (log p) (console p) (viteLog p) (content p)
    (listenPort p) false true (S (closeCallbacks p))
    (timers p) (exited p).

(** [setTimeout(cb, ms)] for the one callback of line 189. *)
Definition setTimeout (ms : N) (p : proc) : proc :=
  mkProc (now p) (log p) (console p) (viteLog p) (content p)
    (listenPort p) (listening p) (closeRequested p) (closeCallbacks p)
    (timers p ++ [(now p + ms)%N]) (exited p).

Definition setClock (t : N) (p : proc) : proc :=
  mkProc t (log p) (console p) (viteLog p) (content p)
    (listenPort p) (listening p) (closeRequested p) (closeCallbacks p)
    (List.filter (fun d => (t <? d)%N) (timers p)) (exited p).

Definition setListening (p : proc) : proc :=
  mkProc (now p) (log p) (console p) (viteLog p) (content p)
    (listenPort p) true (closeRequested p) (closeCallbacks p)
    (timers p) (exited p).

(** *** [parseInt] on the text of PORT *)

(** White space of one byte: TAB, LF, VT, FF, CR and SP. *)
Definition is_space (a : ascii) : bool :=
  let n := nat_of_ascii a in
  ((9 <=? n) && (n <=? 13))%nat || (n =? 32)%nat.

(** The first byte of a white space character of two or three bytes. *)
Definition is_space_lead (a : ascii) : bool :=
  let n := nat_of_ascii a in
  ((n =? 194) || (n =? 225) || (n =? 226) || (n =? 227) || (n =? 239))%nat.

(** U+00A0. *)
Definition is_space2 (a b : ascii) : bool :=
  ((nat_of_ascii a =? 194) && (nat_of_ascii b =? 160))%nat.

(** U+1680, U+2000 to U+200A, U+2028, U+2029, U+202F, U+205F, U+3000
    and U+FEFF. *)
Definition is_space3 (a b c : ascii) : bool :=
  let x := nat_of_ascii a in
  let y := nat_of_ascii b in
  let z := nat_of_ascii c in
  ((x =? 225) && (y =? 154) && (z =? 128)
   || (x =? 226) && (y =? 128) &&
      ((128 <=? z) && (z <=? 138) || (z =? 168) || (z =? 169) || (z =? 175))
   || (x =? 226) && (y =? 129) && (z =? 159)
   || (x =? 227) && (y =? 128) && (z =? 128)
   || (x =? 239) && (y =? 187) && (z =? 191))%nat.

(** Leading white space is skipped, every character that ECMAScript
    counts as white space or as a line terminator. *)
Fixpoint skip_space (s : string) : string :=
  match s with
  | String a r =>
      if is_space a then skip_space r
      else if is_space_lead a then
        match r with
        | String b r1 =>
            if is_space2 a b then skip_space r1
            else
              match r1 with
              | String c r2 => if is_space3 a b c then skip_space r2 else s
              | EmptyString => s
              end
        | EmptyString => s
        end
      else s
  | EmptyString => s
  end.

Definition digit_val (radix : Z) (a : ascii) : option Z :=
  let n := Z.of_nat (nat_of_ascii a) in
  let v := if (48 <=? n) && (n <=? 57) then Some (n - 48)
           else if (97 <=? n) && (n <=? 122) then Some (n - 87)
           else if (65 <=? n) && (n <=? 90) then Some (n - 55)
           else None in
  match v with
  | Some d => if d <? radix then Some d else None
  | None => None
  end.

Fixpoint digits (radix : Z) (s : string) (acc : option Z) : option Z :=
  match s with
  | EmptyString => acc
  | String a r =>
      match digit_val radix a with
      | Some d =>
          digits radix r
            (Some (radix * (match acc with Some n => n | None => 0 end) + d))
      | None => acc
      end
  end.

(** [parseInt(s)] without a radix; [None] is [NaN].  The result is the
    number itself as long as it is one that JavaScript holds exactly. *)
Definition parseInt (s : string) : option Z :=
  let s := skip_space s in
  let '(neg, s) :=
    match s with
    | String "-" r => (true, r)
    | String "+" r => (false, r)
    | _ => (false, s)
    end in
  let '(radix, s) :=
    match s with
    | String "0" (String "x" r) => (16, r)
    | String "0" (String "X" r) => (16, r)
    | _ => (10, s)
    end in
  match digits radix s None with
  | Some n => Some (if neg then - n else n)
  | None => None
  end.

Definition show_port (port : option Z) : jsstring :=
  match port with Some n => dec n | None => js "NaN" end.

(** The ports [server.listen] accepts: the integers from 0 to 65535.
    For any other value, [NaN] included, the call throws. *)
Definition legalPort (port : option Z) : bool :=
  match port with
  | Some n => (0 <=? n) && (n <=? 65535)
  | None => false
  end.

(** *** The start-up sequence (lines 68-178) *)

(** [db] is the error of [initializeDatabase], if it fails; [vite] the
    error that leaves the [try] block of lines 95-157, if any.  When
    [server.listen] throws at line 172 the start-up function ends there:
    lines 181-209 have not run, nothing handles the rejection, and the
    runtime ends the process with status 1. *)
Definition boot (e : env) (db vite : option error) : proc :=
  let p :=
    match db with
    | Some _ =>
        logMsg (js "Database initialization failed, continuing anyway")
          initial
    | None => initial
    end in
  let p :=
    if devBranch e then
      let p :=
        logMsg (js "Development mode detected, attempting to setup Vite") p in
      match vite with
      | None =>
          logMsg (js "Vite development server setup complete")
            (setContent ViteDev p)
      | Some error =>
          serveStatic
            (consoleError error
               (logMsg
                  (js "Failed to setup Vite development server, serving static files")
                  p))
      end
    else
      serveStatic
        (logMsg (js "Production mode detected, serving static files") p) in
  let port := parseInt (or_env (PORT e) "5000") in
  let p := serverListen port p in
  if legalPort port then p else processExit 1 p.

(** *** Handlers (lines 115-118, 176-209) *)

Inductive signal := SIGTERM | SIGINT.

Definition signal_name (s : signal) : jsstring :=
  match s with SIGTERM => js "SIGTERM" | SIGINT => js "SIGINT" end.

(** Lines 181-193. *)
Definition gracefulShutdown (s : signal) (p : proc) : proc :=
  let p :=
    logMsg (js "Received " ++ signal_name s ++
            js ", shutting down gracefully...") p in
  let p := serverClose p in
  setTimeout 10000 p.

(** Lines 183-186: the callback handed to [server.close]. *)
Definition onClosed (p : proc) : proc :=
  processExit 0 (logMsg (js "HTTP server closed.") p).

(** Lines 189-192: the callback handed to [setTimeout]. *)
Definition onTimeout (p : proc) : proc :=
  processExit 1 (logMsg (js "Forcing shutdown after timeout") p).

(** Lines 176-178: the callback handed to [server.listen]. *)
Definition onListening (p : proc) : proc :=
  match listenPort p with
  | Some port =>
      logMsg (js "serving on port " ++ show_port port) (setListening p)
  | None => p
  end.

(** Lines 199-203. *)
Definition onUncaughtException (error : error) (p : proc) : proc :=
  processExit 1
    (consoleError error
       (logMsg (js "Uncaught Exception: " ++ show_opt (err_message error)) p)).

(** Lines 205-209; the rejected promise prints as [[object Promise]]. *)
Definition onUnhandledRejection (reason : error) (p : proc) : proc :=
  processExit 1
    (consoleError reason
       (logMsg (js "Unhandled Rejection at: [object Promise], reason: " ++
                error_toString reason) p)).

(** Lines 115-118: the [error] method of the logger given to Vite. *)
Definition customLoggerError (msg : jsstring) (p : proc) : proc :=
  processExit 1 (viteLoggerError msg p).

(** *** The event loop *)

(** What the loop is woken by.  The exception of [UncaughtException]
    and the reason of [UnhandledRejection] are [Error] objects. *)
Inductive event :=
| Bound
| Signal (s : signal)
| Drained
| Advance (d : N)
| UncaughtException (e : error)
| UnhandledRejection (reason : error)
| ViteError (msg : jsstring).

Definition due (t : N) (p : proc) : bool :=
  existsb (fun d => (d <=? t)%N) (timers p).

(** One turn of the loop.  A process that has exited does nothing. *)
Definition step (p : proc) (ev : event) : proc :=
  match exited p with
  | Some _ => p
  | None =>
      match ev with
      | Bound => onListening p
      | Signal s => gracefulShutdown s p
      | Drained =>
          if closeRequested p && (0 <? closeCallbacks p)%nat
          then onClosed p else p
      | Advance d =>
          let t := (now p + d)%N in
          if due t p then onTimeout (setClock t p) else setClock t p
      | UncaughtException e => onUncaughtException e p
      | UnhandledRejection r => onUnhandledRejection r p
      | ViteError msg =>
          match content p with
          | ViteDev => customLoggerError msg p
          | _ => p
          end
      end
  end.

Definition run (p : proc) (evs : list event) : proc := fold_left step evs p.

(** The state of section 4.5, read off the process. *)
Inductive LifecycleState := Starting | Listening | ShuttingDown | Stopped.

Definition lifecycle (p : proc) : LifecycleState :=
  match exited p with
  | Some _ => Stopped
  | None =>
      if closeRequested p then ShuttingDown
      else if listening p then Listening
      else Starting
  end.

(** Events that neither complete the drain nor report a fault. *)
Definition quiet (ev : event) : bool :=
  match ev with
  | Bound | Signal _ | Advance _ => true
  | _ => false
  end.

(** The time that passes during a sequence of events. *)
Fixpoint elapsed (evs : list event) : N :=
  match evs with
  | [] => 0
  | Advance d :: rest => d + elapsed rest
  | _ :: rest => elapsed rest
  end.

(** The process entered shutdown at [t0]; [a] milliseconds later it
    has seen only signals, time and the bind, and keeps waiting for the
    drain: every pending timer is due at [t0 + 10000] or later. *)
Definition waiting (t0 a : N) (p : proc) : Prop :=
  exited p = None /\ now p = (t0 + a)%N /\
  closeRequested p = true /\ (1 <= closeCallbacks p)%nat /\
  Forall (fun d => (t0 + 10000 <= d)%N) (timers p).

(** Events that are neither a signal nor a fault. *)
Definition calm (ev : event) : bool :=
  match ev with
  | Bound | Drained | Advance _ => true
  | _ => false
  end.

(** The order in which the states of section 4.5 follow each other. *)
Definition rank (s : LifecycleState) : nat :=
  match s with
  | Starting => 0
  | Listening => 1
  | ShuttingDown => 2
  | Stopped => 3
  end.

(** What holds of every state a started process can be in: the server
    was asked to close exactly when a close callback is held, no more
    timers are pending than close callbacks are held, [server.listen]
    was called and a content adapter is installed. *)
Definition consistent (p : proc) : Prop :=
  (closeRequested p = true <-> (0 < closeCallbacks p)%nat) /\
  (length (timers p) <= closeCallbacks p)%nat /\
  is_Some (listenPort p) /\
  content p <> NoAdapter.

(** The decimal text of a natural number, as found in PORT. *)
Definition decimal (n : nat) : string :=
  NilZero.string_of_uint (Nat.to_uint n).

(** The grace period ran out: the timer's callback logged and exited. *)
Definition forced (p : proc) : Prop :=
  exited p = Some 1 /\ In (js "Forcing shutdown after timeout") (log p).

(** With only signals, time and the bind, the process waits until the
    timer armed at [t0] fires. *)
Definition timed (t0 a : N) (p : proc) : Prop :=
  forced p \/
  (exited p = None /\ now p = (t0 + a)%N /\ (a < 10000)%N /\
   In (t0 + 10000)%N (timers p)).

(** Without a completed drain the timer armed at [t0] stays pending
    until it fires; whatever else ends the process ends it with
    status 1. *)
Definition doomed (t0 a : N) (p : proc) : Prop :=
  exited p = Some 1 \/
  (exited p = None /\ now p = (t0 + a)%N /\ (a < 10000)%N /\
   In (t0 + 10000)%N (timers p)).

End Process.

Import Process.

(* ===================================================================== *)
(** ** Concrete runs used below                                            *)
(* ===================================================================== *)

Module Samples.

(** A development host, a port of its own and no NODE_ENV. *)
Definition replit_env : env :=
  {[ "REPL_ID"%string := "3f6c"%string; "PORT"%string := "3000"%string ]}.

(** A run with the production flag. *)
Definition prod_env : env :=
  {[ "NODE_ENV"%string := "production"%string; "PORT"%string := "5000"%string ]}.

Definition health_request : Pipeline.request :=
  Pipeline.mkRequest (js "GET") (js "/api/health") (js "10.0.0.7") None None.

(** The route answers 200 with a small JSON body, three milliseconds
    after the request arrived at [t]. *)
Definition health_handling (t : Z) : Pipeline.handling :=
  Pipeline.mkHandling [JObj [(js "status", JStr (js "ok"))]] 200 (Some (t + 3)).

(** [n] requests of one client, one per millisecond from time [t]. *)
Fixpoint health_burst (n : nat) (t : Z)
  : list (Pipeline.request * Z * Pipeline.handling) :=
  match n with
  | O => []
  | S n' => (health_request, t, health_handling t) :: health_burst n' (t + 1)
  end.

(** A run that is in Production mode by its port alone. *)
Definition port_env : env := {[ "PORT"%string := "5000"%string ]}.

(** [new Error()] and an error raised with a status. *)
Definition bare_error : error := mkError (Some (js "Error")) (Some []) None None.
Definition not_found : error :=
  mkError (Some (js "Error")) (Some (js "No such contest")) (Some 404) None.

(** An error that carries a status no response can be sent with. *)
Definition out_of_range : error :=
  mkError (Some (js "Error")) (Some (js "Quota exceeded")) (Some 1000) None.

(** A development host with a PORT that is not a number. *)
Definition bad_port_env : env :=
  {[ "REPL_ID"%string := "3f6c"%string; "PORT"%string := "abc"%string ]}.

(** What Vite reports when a module fails to transform. *)
Definition transform_failure : jsstring :=
  js "Pre-transform error: Failed to resolve import".

(** A request for a path that starts with [/api] but is not below the
    [/api] mount. *)
Definition docs_request : Pipeline.request :=
  Pipeline.mkRequest (js "GET") (js "/api-docs") (js "10.0.0.7") None None.

(** An environment for a test run on a development host. *)
Definition test_env : env :=
  {[ "REPL_ID"%string := "3f6c"%string; "NODE_ENV"%string := "test"%string ]}.

(** The shell document, reduced to its script tag. *)
Definition shell_document : jsstring :=
  js "<body><script type=module src=" ++ Vite.dquote ++ js "/src/main.tsx" ++
  Vite.dquote ++ js "></script></body>".

End Samples.
Import Samples.

(* ===================================================================== *)
(** * Properties                                                           *)
(* ===================================================================== *)

(** ** The definitions at work *)

Section Examples.

Let q : jsstring := [34%N].

Example stringify_object :
  stringify (JObj [(js "status", JStr (js "ok")); (js "n", JNum (-12));
                   (js "tags", JArr [JNull; JBool true; JStr [10%N]])])
  = js "{" ++ q ++ js "status" ++ q ++ js ":" ++ q ++ js "ok" ++ q ++
    js "," ++ q ++ js "n" ++ q ++ js ":-12," ++
    q ++ js "tags" ++ q ++ js ":[null,true," ++ q ++ js "\n" ++ q ++ js "]}".
Proof. reflexivity. Qed.

Example stringify_lone_surrogate :
  stringify (JStr [55357%N; 56832%N; 55357%N])
  = q ++ [55357%N; 56832%N] ++ js "\ud83d" ++ q.
Proof. reflexivity. Qed.

Example parseInt_samples :
  parseInt "5000" = Some 5000 /\ parseInt " 0x1F" = Some 31 /\
  parseInt "-12px" = Some (-12) /\ parseInt "abc" = None /\
  parseInt "" = None.
Proof. repeat split. Qed.

Example mountMatch_samples :
  Pipeline.mountMatch (js "/api") (js "/api") = true /\
  Pipeline.mountMatch (js "/api") (js "/api/contests") = true /\
  Pipeline.mountMatch (js "/api") (js "/API/contests") = true /\
  Pipeline.mountMatch (js "/api") (js "/apix") = false /\
  startsWith (js "/apix") (js "/api") = true /\
  startsWith (js "/API/contests") (js "/api") = false.
Proof. repeat split. Qed.

Example logLine_health :
  Logger.onFinish (js "GET") (js "/api/health") 200 1000 1003
    (Some (JObj [(js "status", JStr (js "ok"))]))
  = [js "GET /api/health 200 in 3ms :: {" ++ q ++ js "status" ++ q ++
     js ":" ++ q ++ js "ok" ++ q ++ js "}"].
Proof. reflexivity. Qed.

Example logLine_falsy_body :
  Logger.onFinish (js "DELETE") (js "/api/votes/7") 204 1000 1012
    (Logger.capture [JObj []; JNull])
  = [js "DELETE /api/votes/7 204 in 12ms"].
Proof. reflexivity. Qed.

Example logLine_cut :
  Logger.truncate
    (js "GET /api/contests/2024-spring-open/entries 200 in 18ms :: " ++
     stringify (JArr [JObj [(js "id", JNum 1); (js "title", JStr (js "Aurora"))]]))
  = js "GET /api/contests/2024-spring-open/entries 200 in 18ms :: [{" ++
    q ++ js "id" ++ q ++ js ":1," ++ q ++ js "title" ++ q ++ js ":" ++ q ++
    js "Aur" ++ ellipsis.
Proof. reflexivity. Qed.

Example logLine_elsewhere :
  Logger.onFinish (js "GET") (js "/dashboard") 200 1000 1003 None = [].
Proof. reflexivity. Qed.

Example error_reply_not_found :
  ErrorMiddleware.handler false not_found
  = [ErrorMiddleware.ResStatus 404;
     ErrorMiddleware.ResJson (JObj [(js "message", JStr (js "No such contest"))]);
     ErrorMiddleware.Throw not_found].
Proof. reflexivity. Qed.

Example error_reply_breaks :
  ErrorMiddleware.handler false out_of_range = [ErrorMiddleware.Breaks] /\
  ErrorMiddleware.handler true not_found = [ErrorMiddleware.Breaks].
Proof. split; reflexivity. Qed.

Example parseInt_white_space :
  parseInt (String (ascii_of_nat 194) (String (ascii_of_nat 160) "3000"))
    = Some 3000 /\
  parseInt (String (ascii_of_nat 226) (String (ascii_of_nat 128)
              (String (ascii_of_nat 168) " 8080")))
    = Some 8080 /\
  parseInt (String (ascii_of_nat 226) (String (ascii_of_nat 128)
              (String (ascii_of_nat 139) "8080")))
    = None.
Proof. repeat split. Qed.

Example boot_bad_port :
  exited (boot bad_port_env None None) = Some 1 /\
  exited (boot {[ "PORT"%string := "65536"%string ]} None None) = Some 1 /\
  exited (boot {[ "PORT"%string := "-1"%string ]} None None) = Some 1 /\
  exited (boot {[ "PORT"%string := "0"%string ]} None None) = None.
Proof. repeat split. Qed.

Example replace_script_tag :
  Vite.replaceFirst
    (js "<script type=module src=" ++ q ++ js "/src/main.tsx" ++ q ++ js ">")
    (js "src=" ++ Vite.dquote ++ js "/src/main.tsx" ++ Vite.dquote)
    (js "src=" ++ Vite.dquote ++ js "/src/main.tsx?v=" ++ js "V1StGXR8")
  = js "<script type=module src=" ++ q ++ js "/src/main.tsx?v=V1StGXR8>".
Proof. reflexivity. Qed.

Example boot_production_log :
  log (step (boot prod_env None None) Bound)
  = [js "Production mode detected, serving static files";
     js "serving on port 5000"].
Proof. reflexivity. Qed.

Example boot_database_failure :
  log (step (boot replit_env (Some bare_error) None) Bound)
  = [js "Database initialization failed, continuing anyway";
     js "Development mode detected, attempting to setup Vite";
     js "Vite development server setup complete";
     js "serving on port 3000"]
  /\ lifecycle (step (boot replit_env (Some bare_error) None) Bound) = Listening.
Proof. split; reflexivity. Qed.

Example uncaught_exception_exits :
  let p := step (step (boot prod_env None None) Bound)
             (UncaughtException not_found) in
  exited p = Some 1 /\
  last (log p) = Some (js "Uncaught Exception: No such contest").
Proof. split; reflexivity. Qed.

End Examples.

(** ** Mode selection *)

Section ModeSelection.

Variable e : env.

Lemma truthy_env_false (v : option string) :
  truthy_env v = false <-> v = None \/ v = Some ""%string.
Proof.
  destruct v as [s|]; simpl.
  - rewrite negb_false_iff, String.eqb_eq. split.
    + intros ->. now right.
    + intros [H|H]; congruence.
  - split; [now left | reflexivity].
Qed.

Lemma is_lit_true (v : option string) (lit : string) :
  is_lit v lit = true <-> v = Some lit.
Proof. unfold is_lit. apply bool_decide_eq_true. Qed.

Lemma is_lit_false (v : option string) (lit : string) :
  v <> Some lit -> is_lit v lit = false.
Proof. unfold is_lit. apply bool_decide_eq_false. Qed.

Lemma isProduction_true :
  isProduction e = true <->
  NODE_ENV e = Some "production"%string \/
  PORT e = Some "5000"%string \/
  PORT e = Some "8080"%string \/
  REPL_ID e = None \/ REPL_ID e = Some ""%string.
Proof.
  unfold isProduction.
  rewrite !orb_true_iff, !is_lit_true, negb_true_iff, truthy_env_false.
  tauto.
Qed.

Lemma serverMode_Production :
  serverMode e = Production <-> isProduction e = true.
Proof. unfold serverMode. destruct (isProduction e); split; congruence. Qed.

Lemma devBranch_true :
  devBranch e = true <->
  isProduction e = false /\ app_get_env e = "development"%string.
Proof.
  unfold devBranch.
  rewrite andb_true_iff, negb_true_iff, bool_decide_eq_true. tauto.
Qed.

End ModeSelection.

(** C2, as the code has it.  The mode is [Production] exactly when
    NODE_ENV is the text "production", or PORT is the text "5000" or
    "8080", or REPL_ID is not set or is set to the empty text; an
    environment with none of the three variables resolves to
    [Production]; and the Vite branch of line 94 is taken only when the
    mode is [Development] and, besides, the application setting "env"
    reads "development". *)
Theorem serverMode_selection (e : env) :
  (serverMode e = Production <->
     NODE_ENV e = Some "production"%string \/
     PORT e = Some "5000"%string \/
     PORT e = Some "8080"%string \/
     REPL_ID e = None \/ REPL_ID e = Some ""%string)
  /\ (NODE_ENV e = None -> PORT e = None -> REPL_ID e = None ->
      serverMode e = Production)
  /\ (devBranch e = true ->
      serverMode e = Development /\ app_get_env e = "development"%string).
Proof.
  split; [| split].
  - rewrite serverMode_Production. apply isProduction_true.
  - intros _ _ H. apply serverMode_Production, isProduction_true. tauto.
  - intros H. apply devBranch_true in H as [Hp Hd].
    split; [| exact Hd]. unfold serverMode. now rewrite Hp.
Qed.

Lemma serverMode_selection_witness :
  serverMode replit_env = Development /\
  app_get_env replit_env = "development"%string.
Proof.
  apply (proj2 (proj2 (serverMode_selection replit_env))). reflexivity.
Defined.

(** C2 as worded fails: with REPL_ID set to the empty text the
    identifier is present in the environment, no production flag is set
    and the port is not a production port, yet the mode is
    [Production]. *)
Lemma serverMode_empty_REPL_ID :
  let e : env := {[ "REPL_ID"%string := ""%string;
                    "PORT"%string := "3000"%string ]} in
  serverMode e = Production /\
  ~ (NODE_ENV e = Some "production"%string \/
     PORT e = Some "5000"%string \/
     PORT e = Some "8080"%string \/
     REPL_ID e = None).
Proof.
  split; [reflexivity |].
  intros [H | [H | [H | H]]]; vm_compute in H; discriminate H.
Qed.

(** C10, as the code has it.  When REPL_ID is set to a non-empty text,
    NODE_ENV is not set and PORT is neither "5000" nor "8080", the Vite
    branch is taken: the unset NODE_ENV makes the application setting
    "env" read "development", and a start-up whose Vite set-up succeeds
    ends with the development pipeline installed. *)
Theorem devBranch_unset_NODE_ENV (e : env) (r : string) :
  REPL_ID e = Some r -> r <> ""%string ->
  NODE_ENV e = None ->
  PORT e <> Some "5000"%string -> PORT e <> Some "8080"%string ->
  app_get_env e = "development"%string /\
  devBranch e = true /\
  forall db, content (boot e db None) = ViteDev.
Proof.
  intros Hr Hne Hn H5 H8.
  assert (Ha : app_get_env e = "development"%string).
  { unfold app_get_env. now rewrite Hn. }
  assert (Hd : devBranch e = true).
  { apply devBranch_true. split; [| exact Ha].
    destruct (isProduction e) eqn:Hp; [| reflexivity].
    apply isProduction_true in Hp.
    destruct Hp as [H | [H | [H | [H | H]]]]; congruence. }
  repeat split; try assumption.
  intros db. unfold boot. rewrite Hd.
  destruct db, (legalPort (parseInt (or_env (PORT e) "5000"))); reflexivity.
Qed.

Lemma devBranch_unset_NODE_ENV_witness :
  app_get_env replit_env = "development"%string /\
  devBranch replit_env = true /\
  forall db, content (boot replit_env db None) = ViteDev.
Proof.
  apply (devBranch_unset_NODE_ENV replit_env "3f6c"%string);
    vm_compute; congruence.
Defined.

(** C10 as worded fails: REPL_ID is present (with the empty text),
    NODE_ENV is not set and PORT is neither "5000" nor "8080", yet the
    Vite branch is not taken. *)
Lemma devBranch_empty_REPL_ID :
  let e : env := {[ "REPL_ID"%string := ""%string ]} in
  is_Some (REPL_ID e) /\ NODE_ENV e = None /\
  PORT e <> Some "5000"%string /\ PORT e <> Some "8080"%string /\
  devBranch e = false /\
  forall db vite, content (boot e db vite) = Static.
Proof.
  split; [now exists ""%string |].
  repeat split; try (vm_compute; congruence).
Qed.

(** ** The terminal error middleware *)

Section ErrorHandling.

Import ErrorMiddleware.

Lemma or_num_cases (a : option Z) (b : Z) :
  (exists z, a = Some z /\ z <> 0 /\ or_num a b = z) \/
  ((a = None \/ a = Some 0) /\ or_num a b = b).
Proof.
  destruct a as [z|]; simpl; [| right; auto].
  destruct (Z.eqb_spec z 0) as [-> | Hz]; [right; auto | left; eauto].
Qed.

Lemma or_str_cases (a : option jsstring) (b : jsstring) :
  (exists m, a = Some m /\ m <> [] /\ or_str a b = m) \/
  ((a = None \/ a = Some []) /\ or_str a b = b).
Proof.
  destruct a as [[|c m]|]; simpl; [right; auto | left | right; auto].
  exists (c :: m). repeat split. discriminate.
Qed.

Lemma toInt32_small (z : Z) :
  -2147483648 <= z <= 2147483647 -> ErrorMiddleware.toInt32 z = z.
Proof.
  intros H. unfold ErrorMiddleware.toInt32.
  rewrite Z.mod_small by lia. lia.
Qed.

Lemma validStatus_in_range (z : Z) :
  100 <= z <= 999 -> ErrorMiddleware.validStatus z = true.
Proof.
  intros H. unfold ErrorMiddleware.validStatus.
  rewrite toInt32_small by lia.
  apply andb_true_iff. split; apply Z.leb_le; lia.
Qed.

Lemma validStatus_out_of_range (z : Z) :
  0 <= z < 100 \/ 999 < z <= 2147483647 ->
  ErrorMiddleware.validStatus z = false.
Proof.
  intros H. unfold ErrorMiddleware.validStatus.
  rewrite toInt32_small by lia.
  apply andb_false_iff.
  destruct H as [H | H]; [left | right]; apply Z.leb_gt; lia.
Qed.

End ErrorHandling.

(** C9, as the code has it.  For every error that reaches the handler
    while the response has not been started, and whose status can be
    sent (taken as a 32-bit integer it lies within 100 and 999, as
    every status from 100 to 999 does), the handler sets the status,
    hands a JSON object whose only property is [message] to
    [res.json], and then throws the very same error.  The status is the error's [status]
    when that is a non-zero number, else its [statusCode] when that is
    a non-zero number, else 500.  The message is the error's own when
    it is a non-empty text, and "Internal Server Error" when the error
    has no message or an empty one.  When the response was already
    started, or the status cannot be sent, the call of line 82 throws an
    error of its own: no JSON body is sent and the error is not thrown
    again by line 83. *)
Theorem error_handler_reply (headersSent : bool) (err : error) :
  (headersSent = false ->
   ErrorMiddleware.validStatus (ErrorMiddleware.statusOf err) = true ->
   ErrorMiddleware.handler headersSent err =
     [ErrorMiddleware.ResStatus (ErrorMiddleware.statusOf err);
      ErrorMiddleware.ResJson
        (JObj [(js "message", JStr (ErrorMiddleware.messageOf err))]);
      ErrorMiddleware.Throw err])
  /\ (headersSent = true \/
      ErrorMiddleware.validStatus (ErrorMiddleware.statusOf err) = false ->
      ErrorMiddleware.handler headersSent err = [ErrorMiddleware.Breaks])
  /\ (100 <= ErrorMiddleware.statusOf err <= 999 ->
      ErrorMiddleware.validStatus (ErrorMiddleware.statusOf err) = true)
  /\ (0 <= ErrorMiddleware.statusOf err < 100 \/
      999 < ErrorMiddleware.statusOf err <= 2147483647 ->
      ErrorMiddleware.validStatus (ErrorMiddleware.statusOf err) = false)
  /\ ((exists z, err_status err = Some z /\ z <> 0 /\
                 ErrorMiddleware.statusOf err = z)
      \/ ((err_status err = None \/ err_status err = Some 0) /\
          exists z, err_statusCode err = Some z /\ z <> 0 /\
                    ErrorMiddleware.statusOf err = z)
      \/ ((err_status err = None \/ err_status err = Some 0) /\
          (err_statusCode err = None \/ err_statusCode err = Some 0) /\
          ErrorMiddleware.statusOf err = 500))
  /\ ((exists m, err_message err = Some m /\ m <> [] /\
                 ErrorMiddleware.messageOf err = m)
      \/ ((err_message err = None \/ err_message err = Some []) /\
          ErrorMiddleware.messageOf err = js "Internal Server Error")).
Proof.
  split; [| split; [| split; [| split; [| split]]]].
  - intros -> Hv. unfold ErrorMiddleware.handler. now rewrite Hv.
  - intros [-> | Hv]; unfold ErrorMiddleware.handler; [reflexivity |].
    rewrite Hv. now destruct headersSent.
  - intros H. now apply validStatus_in_range.
  - intros H. now apply validStatus_out_of_range.
  - unfold ErrorMiddleware.statusOf.
    destruct (or_num_cases (err_status err)
                (or_num (err_statusCode err) 500)) as [H | [H ->]];
      [now left | right].
    destruct (or_num_cases (err_statusCode err) 500) as [H' | [H' ->]];
      [left | right]; auto.
  - apply or_str_cases.
Qed.

Lemma error_handler_reply_witness :
  ErrorMiddleware.handler false not_found
  = [ErrorMiddleware.ResStatus 404;
     ErrorMiddleware.ResJson (JObj [(js "message", JStr (js "No such contest"))]);
     ErrorMiddleware.Throw not_found]
  /\ ErrorMiddleware.handler false out_of_range = [ErrorMiddleware.Breaks].
Proof.
  split.
  - exact (proj1 (error_handler_reply false not_found) eq_refl eq_refl).
  - refine (proj1 (proj2 (error_handler_reply false out_of_range)) _).
    right.
    refine (proj1 (proj2 (proj2 (proj2
              (error_handler_reply false out_of_range)))) _).
    right. vm_compute. split; congruence.
Defined.

(** C9 as worded fails, in three ways.  For [new Error()], whose
    message is the empty text, the body sent does not carry the error's
    message but the default one.  For an error whose status is 1000 no
    JSON body is sent and the error is not thrown again.  For an error
    that arrives after the response was started the same holds. *)
Lemma error_handler_not_as_worded :
  (err_message bare_error = Some [] /\
   ~ In (ErrorMiddleware.ResJson (JObj [(js "message", JStr [])]))
        (ErrorMiddleware.handler false bare_error) /\
   In (ErrorMiddleware.ResJson
         (JObj [(js "message", JStr (js "Internal Server Error"))]))
      (ErrorMiddleware.handler false bare_error))
  /\ (ErrorMiddleware.statusOf out_of_range = 1000 /\
      (forall body, ~ In (ErrorMiddleware.ResJson body)
                         (ErrorMiddleware.handler false out_of_range)) /\
      ~ In (ErrorMiddleware.Throw out_of_range)
           (ErrorMiddleware.handler false out_of_range))
  /\ ((forall body, ~ In (ErrorMiddleware.ResJson body)
                         (ErrorMiddleware.handler true not_found)) /\
      ~ In (ErrorMiddleware.Throw not_found)
           (ErrorMiddleware.handler true not_found)).
Proof.
  split; [| split].
  - split; [reflexivity |]. split.
    + simpl. intros [H | [H | [H | []]]]; discriminate H.
    + simpl. right. left. reflexivity.
  - split; [reflexivity |]. split.
    + intros body [H | []]. discriminate H.
    + intros [H | []]. discriminate H.
  - split.
    + intros body [H | []]. discriminate H.
    + intros [H | []]. discriminate H.
Qed.

(** ** The request logger *)

Section LoggerFacts.

Lemma truncate_length (l : jsstring) :
  length (Logger.truncate l) = Nat.min (length l) 80.
Proof.
  unfold Logger.truncate, slice0.
  destruct (Nat.ltb_spec 80 (length l)) as [H | H].
  - rewrite length_app, length_take.
    change (length ellipsis) with 1%nat. lia.
  - lia.
Qed.

Lemma truncate_cases (l : jsstring) :
  Logger.truncate l =
    if (length l <=? 80)%nat then l else firstn 79 l ++ ellipsis.
Proof.
  unfold Logger.truncate, slice0.
  destruct (Nat.ltb_spec 80 (length l)), (Nat.leb_spec (length l) 80);
    (reflexivity || lia).
Qed.

Lemma onFinish_cases (method path : jsstring) (statusCode start finish : Z)
    (captured : option json) :
  Logger.onFinish method path statusCode start finish captured =
    if startsWith path (js "/api")
    then [Logger.truncate
            (Logger.buildLine method path statusCode (finish - start) captured)]
    else [].
Proof. reflexivity. Qed.

Lemma logged_short (w : Pipeline.walk) (req : Pipeline.request) (now : Z)
    (h : Pipeline.handling) :
  Forall (fun line : jsstring => (length line <= 80)%nat)
    (Pipeline.logged w req now h).
Proof.
  unfold Pipeline.logged.
  destruct (Pipeline.logger_armed w); [| constructor].
  destruct (Pipeline.finish h); [| constructor].
  rewrite onFinish_cases.
  destruct (startsWith _ _); constructor; [| constructor].
  rewrite truncate_length. lia.
Qed.

End LoggerFacts.

(** C4.  Every line the Request Logger emits is the built line itself
    when that has at most 80 code units, and otherwise its first 79 code
    units followed by the one-unit ellipsis; so an emitted line never
    exceeds 81 characters (it never exceeds 80).  The same bound holds
    for every line the logger emits for a request served by the
    process. *)
Theorem logLine_truncated (method path : jsstring)
    (statusCode start finish : Z) (captured : option json) :
  let raw :=
    Logger.buildLine method path statusCode (finish - start) captured in
  Forall (fun line : jsstring =>
            (length line <= 81)%nat /\ (length line <= 80)%nat /\
            line = if (length raw <=? 80)%nat then raw
                   else firstn 79 raw ++ ellipsis)
    (Logger.onFinish method path statusCode start finish captured)
  /\ length ellipsis = 1%nat
  /\ forall e st req now h,
       Forall (fun line : jsstring => (length line <= 81)%nat)
         (snd (Pipeline.serve e st req now h)).
Proof.
  intros raw. split; [| split; [reflexivity |]].
  - rewrite onFinish_cases. fold raw.
    destruct (startsWith _ _); constructor; [| constructor].
    pose proof (truncate_length raw). repeat split; try lia.
    apply truncate_cases.
  - intros e st req now h. simpl.
    eapply Forall_impl; [apply logged_short |].
    simpl. intros line Hl. lia.
Qed.

(** ** Rate limiting *)

Section PipelineFacts.

Import RateLimit Pipeline.

Lemma handle_fresh (st : store) (client : jsstring) (t : Z) :
  window_free st client t ->
  handle limiter st client t =
    (<[client := mkClient 1 (t + windowMs limiter)]> st, Next).
Proof.
  unfold window_free, handle, increment, current.
  destruct (st !! client) as [c|]; [| reflexivity].
  intros H. destruct (Z.leb_spec (resetTime c) t); [reflexivity | lia].
Qed.

Lemma handle_counting (st : store) (client : jsstring) (k : nat) (R t : Z) :
  st !! client = Some (mkClient k R) -> t < R ->
  handle limiter st client t =
    (<[client := mkClient (S k) R]> st,
     if (100 <? S k)%nat then TooMany 429 (message limiter) else Next).
Proof.
  intros Hc Ht. unfold handle, increment, current. rewrite Hc. simpl.
  destruct (Z.leb_spec R t); [lia | reflexivity].
Qed.

Lemma run_parsers (req : request) (t : Z) (st : store) :
  run [JsonParser; UrlencodedParser; RequestLogger] req t st false
  = parsed st req.
Proof.
  unfold parsed, bodyError. cbn [run].
  destruct (jsonError req), (urlencodedError req); reflexivity.
Qed.

Lemma run_unlimited (e : env) (req : request) (t : Z) (st : store) :
  productionFlag e = false ->
  run (stack e) req t st false = parsed st req.
Proof. intros H. unfold stack. rewrite H. apply run_parsers. Qed.

Lemma run_limited (e : env) (req : request) (t : Z) (st : store) :
  productionFlag e = true ->
  mountMatch (js "/api") (path req) = true ->
  run (stack e) req t st false =
    match handle limiter st (ip req) t with
    | (st', TooMany status body) =>
        mkWalk st' (Some (status, body)) None false false
    | (st', Next) => parsed st' req
    end.
Proof.
  intros H Hm. unfold stack. rewrite H.
  change (run ([Helmet; Compression; RateLimiter (js "/api") limiter] ++
               [JsonParser; UrlencodedParser; RequestLogger]) req t st false)
    with (if mountMatch (js "/api") (path req)
          then match handle limiter st (ip req) t with
               | (st', TooMany status body) =>
                   mkWalk st' (Some (status, body)) None false false
               | (st', Next) =>
                   run [JsonParser; UrlencodedParser; RequestLogger]
                     req t st' false
               end
          else run [JsonParser; UrlencodedParser; RequestLogger]
                 req t st false).
  rewrite Hm.
  destruct (handle limiter st (ip req) t) as [st' [|status body]];
    [apply run_parsers | reflexivity].
Qed.

Lemma run_off_mount (e : env) (req : request) (t : Z) (st : store) :
  mountMatch (js "/api") (path req) = false ->
  run (stack e) req t st false = parsed st req.
Proof.
  intros Hm. unfold stack. destruct (productionFlag e).
  - change (run ([Helmet; Compression; RateLimiter (js "/api") limiter] ++
                 [JsonParser; UrlencodedParser; RequestLogger]) req t st false)
      with (if mountMatch (js "/api") (path req)
            then match handle limiter st (ip req) t with
                 | (st', TooMany status body) =>
                     mkWalk st' (Some (status, body)) None false false
                 | (st', Next) =>
                     run [JsonParser; UrlencodedParser; RequestLogger]
                       req t st' false
                 end
            else run [JsonParser; UrlencodedParser; RequestLogger]
                   req t st false).
    rewrite Hm. apply run_parsers.
  - apply run_parsers.
Qed.

Lemma parsed_armed (st : store) (req : request) :
  let w := parsed st req in
  limited w = None /\ failed w = bodyError req /\
  (logger_armed w = true <-> failed w = None) /\
  (reached_routes w = true <-> failed w = None).
Proof.
  unfold parsed. destruct (bodyError req); simpl;
    repeat split; congruence.
Qed.

(** The logger and the routes are reached exactly by the requests that
    neither the limiter answered nor a body parser rejected. *)
Lemma run_armed (e : env) (req : request) (t : Z) (st : store) :
  let w := run (stack e) req t st false in
  (logger_armed w = true <-> limited w = None /\ failed w = None) /\
  (reached_routes w = true <-> limited w = None /\ failed w = None).
Proof.
  assert (Hp : forall st',
             let w := parsed st' req in
             (logger_armed w = true <-> limited w = None /\ failed w = None) /\
             (reached_routes w = true <-> limited w = None /\ failed w = None)).
  { intros st'. destruct (parsed_armed st' req) as (H1 & _ & H3 & H4).
    cbv zeta. rewrite H1, H3, H4. tauto. }
  destruct (productionFlag e) eqn:Hf.
  - destruct (mountMatch (js "/api") (path req)) eqn:Hm.
    + cbv zeta. rewrite (run_limited _ _ _ _ Hf Hm).
      destruct (handle limiter st (ip req) t) as [st' [|status body]].
      * apply Hp.
      * simpl. split; split; (congruence || intros [H _]; congruence).
    + cbv zeta. rewrite (run_off_mount _ _ _ _ Hm). apply Hp.
  - cbv zeta. rewrite (run_unlimited _ _ _ _ Hf). apply Hp.
Qed.

Lemma burst_unlimited (e : env) (reqs : list (request * Z * handling)) :
  productionFlag e = false ->
  forall st,
    Forall (fun s => answer s = None /\ (failure s = None -> routed s = true))
      (burst e st reqs).
Proof.
  intros Hf. induction reqs as [| [[req t] h] reqs IH]; intros st.
  - constructor.
  - cbn [burst]. unfold serve. rewrite (run_unlimited _ _ _ _ Hf).
    destruct (parsed_armed st req) as (H1 & _ & _ & H4). cbv zeta in *.
    constructor; [split; [exact H1 | apply H4] |].
    replace (store_after (parsed st req)) with st; [apply IH |].
    unfold parsed. now destruct (bodyError req).
Qed.

Lemma burst_counting (e : env) (client : jsstring) (R : Z)
    (reqs : list (request * Z * handling)) :
  productionFlag e = true ->
  forall (st : store) (k : nat),
    st !! client = Some (mkClient k R) ->
    Forall (fun x : request * Z * handling =>
              ip x.1.1 = client /\
              mountMatch (js "/api") (path x.1.1) = true /\
              x.1.2 < R) reqs ->
    forall (i : nat) (s : seen),
      burst e st reqs !! i = Some s ->
      if (S (k + i) <=? 100)%nat
      then answer s = None /\ (failure s = None -> routed s = true)
      else answer s = Some (429, message limiter) /\
           routed s = false /\ lines s = [].
Proof.
  intros Hf. induction reqs as [| [[req t] h] reqs IH];
    intros st k Hc Hall i s Hi.
  - destruct i; discriminate Hi.
  - apply Forall_cons in Hall as [(Hip & Hm & Ht) Hall]. cbn [fst snd] in Hip, Hm, Ht.
    cbn [burst] in Hi. unfold serve in Hi.
    rewrite (run_limited _ _ _ _ Hf Hm), Hip in Hi.
    rewrite (handle_counting _ _ _ _ _ Hc Ht) in Hi.
    assert (Hc' : <[client := mkClient (S k) R]> st !! client
                  = Some (mkClient (S k) R)) by apply lookup_insert_eq.
    destruct (parsed_armed (<[client := mkClient (S k) R]> st) req)
      as (H1 & _ & _ & H4). cbv zeta in *.
    assert (Hst : store_after (parsed (<[client := mkClient (S k) R]> st) req)
                  = <[client := mkClient (S k) R]> st).
    { unfold parsed. now destruct (bodyError req). }
    destruct i as [| i].
    + replace (S (k + 0)) with (S k) by lia.
      destruct (Nat.ltb_spec 100 (S k)), (Nat.leb_spec (S k) 100); try lia;
        simpl in Hi; injection Hi as <-; simpl;
        first [split; [exact H1 | apply H4] | auto].
    + replace (S (k + S i)) with (S (S k + i)) by lia.
      destruct (100 <? S k)%nat; simpl in Hi; [| rewrite Hst in Hi];
        exact (IH _ _ Hc' Hall i s Hi).
Qed.

Lemma burst_length (e : env) (reqs : list (request * Z * handling)) :
  forall st, length (burst e st reqs) = length reqs.
Proof.
  induction reqs as [| [[req t] h] reqs IH]; intros st; [reflexivity |].
  cbn [burst]. destruct (serve e st req t h) as [w ls]. simpl.
  now rewrite IH.
Qed.

Lemma burst_window (e : env) (client : jsstring) (t1 : Z) (st : store)
    (reqs : list (request * Z * handling)) :
  productionFlag e = true ->
  window_free st client t1 ->
  one_window limiter client t1 reqs ->
  forall (i : nat) (s : seen),
    burst e st reqs !! i = Some s ->
    if (i <? 100)%nat
    then answer s = None /\ (failure s = None -> routed s = true)
    else answer s = Some (429, message limiter) /\
         routed s = false /\ lines s = [].
Proof.
  intros Hf Hfree [Hfirst Hall] i s Hi.
  destruct reqs as [| [[req t] h] reqs]; [destruct i; discriminate Hi |].
  simpl in Hfirst. subst t.
  pose proof Hall as Hall0.
  apply Forall_cons in Hall as [(Hip & Hm & Ht) Hall]. cbn [fst snd] in Hip, Hm, Ht.
  cbn [burst] in Hi. unfold serve in Hi.
  rewrite (run_limited _ _ _ _ Hf Hm), Hip in Hi.
  rewrite (handle_fresh _ _ _ Hfree) in Hi.
  destruct (parsed_armed (<[client := mkClient 1 (t1 + windowMs limiter)]> st)
              req) as (H1 & _ & _ & H4). cbv zeta in *.
  assert (Hst : store_after
                  (parsed (<[client := mkClient 1 (t1 + windowMs limiter)]> st)
                     req)
                = <[client := mkClient 1 (t1 + windowMs limiter)]> st).
  { unfold parsed. now destruct (bodyError req). }
  cbv beta iota zeta in Hi. rewrite Hst in Hi.
  destruct i as [| i]; simpl in Hi.
  - injection Hi as <-. simpl. split; [exact H1 | apply H4].
  - assert (Hc : <[client := mkClient 1 (t1 + windowMs limiter)]> st !! client
                 = Some (mkClient 1 (t1 + windowMs limiter)))
      by apply lookup_insert_eq.
    assert (Hall' : Forall (fun x : request * Z * handling =>
                              ip x.1.1 = client /\
                              mountMatch (js "/api") (path x.1.1) = true /\
                              x.1.2 < t1 + windowMs limiter) reqs).
    { eapply Forall_impl; [exact Hall |].
      intros x (Hx1 & Hx2 & Hx3). repeat split; try assumption. lia. }
    pose proof (burst_counting e client _ reqs Hf _ 1%nat Hc Hall' i s Hi) as H.
    replace (S (1 + i) <=? 100)%nat with (S i <? 100)%nat in H; [exact H |].
    destruct (Nat.ltb_spec (S i) 100), (Nat.leb_spec (S (1 + i)) 100);
      (reflexivity || lia).
Qed.

Lemma health_burst_in_window (client : jsstring) (t1 : Z) (n : nat) :
  client = js "10.0.0.7" ->
  forall t, t1 <= t -> t + Z.of_nat n <= t1 + windowMs limiter ->
  Forall (in_window limiter client t1) (health_burst n t).
Proof.
  intros ->. change (windowMs limiter) with 900000.
  induction n as [| n IH]; intros t Hlo Hhi; [constructor |].
  cbn [health_burst]. constructor.
  - unfold in_window. change (windowMs limiter) with 900000.
    cbn [fst snd]. repeat split; try reflexivity; lia.
  - apply IH; lia.
Qed.

Lemma buildLine_shape (method path : jsstring) (statusCode duration : Z)
    (captured : option json) :
  Logger.buildLine method path statusCode duration captured =
    method ++ js " " ++ path ++ js " " ++ dec statusCode ++ js " in " ++
    dec duration ++ js "ms" ++
    match captured with
    | Some body => if truthy body then js " :: " ++ stringify body else []
    | None => []
    end.
Proof.
  unfold Logger.buildLine.
  destruct captured as [body|]; [destruct (truthy body) |];
    now rewrite <- ?app_assoc, ?app_nil_r.
Qed.

Lemma capture_last (calls : list json) (body : json) :
  Logger.capture (calls ++ [body]) = Some body.
Proof. unfold Logger.capture. now rewrite fold_left_app. Qed.

End PipelineFacts.

(** C3, as the code has it.  The limiter (window of 15 minutes, 100
    requests per client) is installed exactly in the runs whose NODE_ENV
    is "production"; these runs are in Production mode.  In such a run,
    of the requests one client sends on the [/api] mount path within one
    window, the first hundred are passed on (and reach the routes unless
    a body parser rejects them) and every later one is answered with
    status 429 and the configured message, reaches neither the routes
    nor the logger.  In a run without the flag no request is answered
    by a limiter: each is passed on. *)
Theorem rate_limit_by_flag (e : env) (st : RateLimit.store)
    (reqs : list (Pipeline.request * Z * Pipeline.handling)) :
  RateLimit.windowMs RateLimit.limiter = 15 * 60 * 1000
  /\ RateLimit.max RateLimit.limiter = 100%nat
  /\ (productionFlag e = true -> serverMode e = Production)
  /\ (productionFlag e = false ->
      Forall (fun s => Pipeline.answer s = None /\
                       (Pipeline.failure s = None -> Pipeline.routed s = true))
        (Pipeline.burst e st reqs))
  /\ (productionFlag e = true ->
      forall client t1,
        Pipeline.window_free st client t1 ->
        Pipeline.one_window RateLimit.limiter client t1 reqs ->
        forall i, (i < length reqs)%nat ->
          exists s,
            Pipeline.burst e st reqs !! i = Some s /\
            if (i <? 100)%nat
            then Pipeline.answer s = None /\
                 (Pipeline.failure s = None -> Pipeline.routed s = true)
            else Pipeline.answer s =
                   Some (429, js "Too many requests from this IP, please try again later.")
                 /\ Pipeline.routed s = false /\ Pipeline.lines s = []).
Proof.
  split; [reflexivity |]. split; [reflexivity |]. split; [| split].
  - intros H. apply serverMode_Production. unfold isProduction.
    unfold productionFlag in H. now rewrite H.
  - intros H. now apply burst_unlimited.
  - intros Hf client t1 Hfree Hwin i Hi.
    destruct (lookup_lt_is_Some_2 (Pipeline.burst e st reqs) i) as [s Hs].
    { now rewrite burst_length. }
    exists s. split; [exact Hs |].
    exact (burst_window e client t1 st reqs Hf Hfree Hwin i s Hs).
Qed.

Lemma rate_limit_by_flag_witness :
  exists s,
    Pipeline.burst prod_env ∅ (health_burst 101 0) !! 100%nat = Some s /\
    Pipeline.answer s =
      Some (429, js "Too many requests from this IP, please try again later.")
    /\ Pipeline.routed s = false /\ Pipeline.lines s = [].
Proof.
  refine (proj2 (proj2 (proj2 (proj2
            (rate_limit_by_flag prod_env ∅ (health_burst 101 0)))))
            _ (js "10.0.0.7") 0 _ _ 100%nat _).
  - reflexivity.
  - exact I.
  - split; [reflexivity |].
    apply health_burst_in_window; [reflexivity | lia | vm_compute; congruence].
  - vm_compute. lia.
Defined.

(** C3 as worded fails: a run started with PORT=5000 and no NODE_ENV is
    in Production mode, yet the 101st request of one client within one
    window is not rejected; it reaches the routes. *)
Lemma rate_limit_absent_in_production_mode :
  serverMode port_env = Production /\
  Pipeline.one_window RateLimit.limiter (js "10.0.0.7") 0 (health_burst 101 0) /\
  exists s,
    Pipeline.burst port_env ∅ (health_burst 101 0) !! 100%nat = Some s /\
    Pipeline.answer s = None /\ Pipeline.routed s = true.
Proof.
  split; [reflexivity |]. split.
  - split; [reflexivity |].
    apply health_burst_in_window; [reflexivity | lia | vm_compute; congruence].
  - eexists. split; [vm_compute; reflexivity |]. split; reflexivity.
Qed.

(** ** One line per logged request *)

(** C5, as the code has it.  A request reaches the Request Logger
    exactly when the rate limiter has not answered it and no body
    parser has rejected it.  For a request
    that reaches the logger and whose response finishes at [t], the
    logger emits exactly one line when the path starts with [/api] and
    none otherwise; the line is [METHOD PATH STATUS in Nms], with
    [ :: ] and the serialised body appended only when a body was
    captured (and is truthy), cut to 80 code units.  A request
    answered by the limiter or rejected by a body parser, or whose
    response never finishes, yields no line. *)
Theorem logger_one_line (e : env) (st : RateLimit.store)
    (req : Pipeline.request) (now : Z) (h : Pipeline.handling) :
  let w := fst (Pipeline.serve e st req now h) in
  let ls := snd (Pipeline.serve e st req now h) in
  (Pipeline.logger_armed w = true <->
     Pipeline.limited w = None /\ Pipeline.failed w = None)
  /\ (Pipeline.limited w <> None \/ Pipeline.failed w <> None -> ls = [])
  /\ (Pipeline.finish h = None -> ls = [])
  /\ (forall t,
        Pipeline.limited w = None -> Pipeline.failed w = None ->
        Pipeline.finish h = Some t ->
        ls = if startsWith (Pipeline.path req) (js "/api")
             then [Logger.truncate
                     (Pipeline.method req ++ js " " ++ Pipeline.path req ++
                      js " " ++ dec (Pipeline.statusCode h) ++ js " in " ++
                      dec (t - now) ++ js "ms" ++
                      match Logger.capture (Pipeline.json_calls h) with
                      | Some body =>
                          if truthy body then js " :: " ++ stringify body
                          else []
                      | None => []
                      end)]
             else []).
Proof.
  cbv zeta. unfold Pipeline.serve. cbn [fst snd].
  destruct (run_armed e req now st) as [Harm _]. cbv zeta in Harm.
  set (w := Pipeline.run (Pipeline.stack e) req now st false) in *.
  split; [exact Harm |]. unfold Pipeline.logged. split; [| split].
  - intros Hl. destruct (Pipeline.logger_armed w); [| reflexivity].
    exfalso. destruct Harm as [Harm _].
    destruct (Harm eq_refl) as [H1 H2]. destruct Hl as [Hl | Hl]; auto.
  - intros ->. now destruct (Pipeline.logger_armed w).
  - intros t Hl Hf ->. rewrite (proj2 Harm (conj Hl Hf)).
    rewrite onFinish_cases, buildLine_shape. reflexivity.
Qed.

Lemma logger_one_line_witness :
  snd (Pipeline.serve replit_env ∅ health_request 1000 (health_handling 1000))
  = [js "GET /api/health 200 in 3ms :: " ++
     stringify (JObj [(js "status", JStr (js "ok"))])].
Proof.
  rewrite (proj2 (proj2 (proj2
             (logger_one_line replit_env ∅ health_request 1000
                (health_handling 1000)))) 1003 eq_refl eq_refl eq_refl).
  reflexivity.
Defined.

(** C5 as worded fails: in a run with the production flag the 101st
    request of a client within one window has a path under [/api] and
    its response finishes, yet the Request Logger emits no line for it;
    the 100th still gets its line. *)
Lemma limited_request_not_logged :
  startsWith (Pipeline.path health_request) (js "/api") = true /\
  (exists s,
     Pipeline.burst prod_env ∅ (health_burst 101 0) !! 99%nat = Some s /\
     length (Pipeline.lines s) = 1%nat) /\
  (exists s,
     Pipeline.burst prod_env ∅ (health_burst 101 0) !! 100%nat = Some s /\
     Pipeline.answer s <> None /\ Pipeline.lines s = []).
Proof.
  split; [reflexivity |]. split.
  - eexists. split; [vm_compute; reflexivity | reflexivity].
  - eexists. split; [vm_compute; reflexivity |]. split; [discriminate | reflexivity].
Qed.

(** ** The process: falling back, faults, shutdown *)

Section ProcessFacts.

Lemma step_exited (p : proc) (c : Z) (ev : event) :
  exited p = Some c -> step p ev = p.
Proof. intros H. unfold step. now rewrite H. Qed.

Lemma run_exited (evs : list event) :
  forall (p : proc) (c : Z), exited p = Some c -> run p evs = p.
Proof.
  induction evs as [| ev evs IH]; intros p c H; [reflexivity |].
  unfold run in *. cbn [fold_left]. rewrite (step_exited p c ev H).
  now apply (IH p c).
Qed.

Lemma run_cons (p : proc) (ev : event) (evs : list event) :
  run p (ev :: evs) = run (step p ev) evs.
Proof. reflexivity. Qed.

Lemma run_snoc (p : proc) (evs : list event) (ev : event) :
  run p (evs ++ [ev]) = step (run p evs) ev.
Proof. unfold run. now rewrite fold_left_app. Qed.

Lemma step_signal (p : proc) (s : signal) :
  exited p = None ->
  step p (Signal s) = gracefulShutdown s p.
Proof. intros H. unfold step. now rewrite H. Qed.

Lemma signals_arm_timers (sigs : list signal) :
  forall p : proc,
    exited p = None ->
    exited (run p (List.map Signal sigs)) = None /\
    length (timers (run p (List.map Signal sigs)))
      = (length (timers p) + length sigs)%nat /\
    closeCallbacks (run p (List.map Signal sigs))
      = (closeCallbacks p + length sigs)%nat.
Proof.
  induction sigs as [| s sigs IH]; intros p Hp.
  - simpl. repeat split; try assumption; lia.
  - cbn [List.map]. rewrite run_cons, (step_signal p s Hp).
    destruct (IH (gracefulShutdown s p)) as (H1 & H2 & H3); [exact Hp |].
    rewrite H2, H3. repeat split; [exact H1 | |]; simpl.
    + rewrite length_app. simpl. lia.
    + lia.
Qed.

End ProcessFacts.

(** C1, as the code has it.  Shutdown is not guarded: every termination
    or interrupt signal that reaches a process which has not exited runs
    the sequence of lines 181-193 again; it logs the signal, asks the
    server to close with one more callback, and arms one more timer of
    10 seconds, so [n] signals leave [n] more timers armed.  The process
    is in [ShuttingDown] from the first signal on, and once an exit
    status is set no later event changes it. *)
Theorem shutdown_per_signal (p : proc) (s : signal) :
  exited p = None ->
  let p' := step p (Signal s) in
  log p' = log p ++ [js "Received " ++ signal_name s ++
                     js ", shutting down gracefully..."]
  /\ closeCallbacks p' = S (closeCallbacks p)
  /\ timers p' = timers p ++ [(now p + 10000)%N]
  /\ lifecycle p' = ShuttingDown
  /\ (forall sigs : list signal,
        length (timers (run p (List.map Signal sigs)))
          = (length (timers p) + length sigs)%nat /\
        closeCallbacks (run p (List.map Signal sigs))
          = (closeCallbacks p + length sigs)%nat)
  /\ (forall (q : proc) (c : Z) (evs : list event),
        exited q = Some c -> exited (run q evs) = Some c).
Proof.
  intros Hp. cbv zeta. rewrite (step_signal p s Hp).
  repeat split; try reflexivity.
  - unfold lifecycle. simpl. now rewrite Hp.
  - now destruct (signals_arm_timers sigs p Hp) as (_ & H & _).
  - now destruct (signals_arm_timers sigs p Hp) as (_ & _ & H).
  - intros q c evs Hq. now rewrite (run_exited evs q c Hq).
Qed.

Lemma shutdown_per_signal_witness :
  timers (step (step (boot prod_env None None) Bound) (Signal SIGTERM))
  = [10000%N].
Proof.
  rewrite (proj1 (proj2 (proj2
             (shutdown_per_signal (step (boot prod_env None None) Bound)
                SIGTERM eq_refl)))).
  reflexivity.
Defined.

(** C1 as worded fails: a second signal received while the process is
    already shutting down runs the sequence again and arms a second
    timer. *)
Lemma second_signal_restarts_shutdown :
  let p0 := step (boot prod_env None None) Bound in
  let p1 := step p0 (Signal SIGTERM) in
  let p2 := step p1 (Signal SIGTERM) in
  lifecycle p0 = Listening /\
  lifecycle p1 = ShuttingDown /\ length (timers p1) = 1%nat /\
  exited p1 = None /\
  length (timers p2) = 2%nat /\ closeCallbacks p2 = 2%nat /\
  length (log p2) = S (length (log p1)).
Proof. vm_compute. repeat split. Qed.

(** C7, as the code has it.  When the Vite branch is taken and its
    set-up fails with [err], start-up logs the failure, prints the
    error, installs the static server and goes on to [server.listen]
    with the port read from PORT (5000 by default); the failure is never
    what ends the process, which exits at this point exactly when it
    would have without the failure.  When the port is a legal one (an
    integer from 0 to 65535) the process has not exited, and it is
    [Listening] once the bind succeeds. *)
Theorem vite_failure_falls_back (e : env) (db : option error) (err : error) :
  devBranch e = true ->
  let p := boot e db (Some err) in
  let port := parseInt (or_env (PORT e) "5000") in
  In (js "Failed to setup Vite development server, serving static files")
     (log p)
  /\ console p = [err]
  /\ content p = Static
  /\ listenPort p = Some port
  /\ exited p = exited (boot e db None)
  /\ (legalPort port = true ->
      exited p = None /\
      lifecycle p = Starting /\
      lifecycle (step p Bound) = Listening).
Proof.
  intros Hd. cbv zeta. unfold boot. rewrite Hd.
  destruct (legalPort (parseInt (or_env (PORT e) "5000"))) eqn:Hl;
    destruct db as [d|]; repeat split; simpl; auto; discriminate.
Qed.

Lemma vite_failure_falls_back_witness :
  content (boot replit_env None (Some bare_error)) = Static /\
  exited (boot replit_env None (Some bare_error)) = None /\
  lifecycle (step (boot replit_env None (Some bare_error)) Bound) = Listening.
Proof.
  pose proof (vite_failure_falls_back replit_env None bare_error eq_refl)
    as (_ & _ & Hc & _ & _ & Hl).
  destruct (Hl eq_refl) as (He & _ & Hb).
  exact (conj Hc (conj He Hb)).
Defined.

(** C7 as worded fails: with PORT=abc on a development host the Vite
    branch is taken, its failure is caught and the static server is
    installed, yet [server.listen] is handed [NaN] and throws: the
    process ends with status 1 and never reaches [Listening]. *)
Lemma vite_failure_bad_port :
  let p := boot bad_port_env None (Some bare_error) in
  devBranch bad_port_env = true /\
  content p = Static /\
  listenPort p = Some None /\
  exited p = Some 1 /\
  lifecycle (step p Bound) = Stopped /\
  forall evs, lifecycle (run p evs) <> Listening.
Proof.
  cbv zeta. repeat split.
  intros evs.
  rewrite (run_exited evs (boot bad_port_env None (Some bare_error)) 1);
    [discriminate | reflexivity].
Qed.

(** C6, as the code has it.  In a process that runs the development
    pipeline, every error reported through the pipeline's logger is
    logged by Vite's own logger and then ends the process with exit
    status 1.  An error raised while a page is rendered, whether by
    reading the shell document or by the HTML post-processor, is handed
    to the stack-trace fix-up and then passed to [next]; the catch-all
    does nothing else with it. *)
Theorem vite_errors (p : proc) (msg : jsstring) :
  exited p = None -> content p = ViteDev ->
  let p' := step p (ViteError msg) in
  viteLog p' = viteLog p ++ [msg]
  /\ exited p' = Some 1
  /\ lifecycle p' = Stopped
  /\ (forall url nanoid transformIndexHtml e,
        Vite.catchAll url (Vite.Err e) nanoid transformIndexHtml
        = [Vite.SsrFixStacktrace e; Vite.NextErr e])
  /\ (forall url template nanoid transformIndexHtml e,
        transformIndexHtml url
          (Vite.replaceFirst template
             (js "src=" ++ Vite.dquote ++ js "/src/main.tsx" ++ Vite.dquote)
             (js "src=" ++ Vite.dquote ++ js "/src/main.tsx?v=" ++ nanoid))
        = Vite.Err e ->
        Vite.catchAll url (Vite.Ok template) nanoid transformIndexHtml
        = [Vite.SsrFixStacktrace e; Vite.NextErr e]).
Proof.
  intros Hp Hc. cbv zeta. unfold step. rewrite Hp, Hc.
  repeat split.
  intros url template nanoid tr e H. unfold Vite.catchAll. now rewrite H.
Qed.

Lemma vite_errors_witness :
  exited (step (step (boot replit_env None None) Bound)
            (ViteError transform_failure)) = Some 1.
Proof.
  exact (proj1 (proj2
           (vite_errors (step (boot replit_env None None) Bound)
              transform_failure eq_refl eq_refl))).
Defined.

(** C6 as worded fails: in a listening development process an error
    reported by the transform pipeline is not turned into a response
    while the process lives on; the process stops with status 1. *)
Lemma vite_error_is_fatal :
  let p := step (boot replit_env None None) Bound in
  content p = ViteDev /\ lifecycle p = Listening /\
  lifecycle (step p (ViteError transform_failure)) = Stopped /\
  exited (step p (ViteError transform_failure)) = Some 1.
Proof. vm_compute. repeat split. Qed.

(** ** The race between the drain and the grace period *)

Section ShutdownRace.

Variable t0 : N.

Lemma Forall_keep {A : Type} (P : A -> Prop) (f : A -> bool) (l : list A) :
  Forall P l -> Forall P (List.filter f l).
Proof.
  induction 1 as [| x l Hx _ IH]; simpl; [constructor |].
  destruct (f x); [constructor |]; assumption.
Qed.

Lemma not_due (t : N) (p : proc) :
  Forall (fun d => (t0 + 10000 <= d)%N) (timers p) ->
  (t < t0 + 10000)%N -> due t p = false.
Proof.
  unfold due. induction 1 as [| d ds Hd _ IH]; intros Ht; [reflexivity |].
  cbn [existsb]. rewrite (IH Ht).
  destruct (N.leb_spec d t); [lia | reflexivity].
Qed.

Lemma waiting_step (a : N) (p : proc) (ev : event) :
  waiting t0 a p -> quiet ev = true ->
  (a + elapsed [ev] < 10000)%N ->
  waiting t0 (a + elapsed [ev]) (step p ev).
Proof.
  intros (He & Hn & Hc & Hk & Ht) Hq Ha. unfold step. rewrite He.
  destruct ev as [| s | | d | | |]; try discriminate Hq; cbn [elapsed] in *.
  - unfold onListening.
    destruct (listenPort p); repeat split; simpl; auto; rewrite Hn; lia.
  - repeat split; simpl; auto; try (rewrite Hn; lia); try lia.
    apply Forall_app. split; [exact Ht |].
    constructor; [lia | constructor].
  - rewrite (not_due _ p Ht) by lia.
    repeat split; simpl; auto; try lia.
    now apply Forall_keep.
Qed.

Lemma waiting_run (evs : list event) :
  forall (a : N) (p : proc),
    waiting t0 a p -> forallb quiet evs = true ->
    (a + elapsed evs < 10000)%N ->
    waiting t0 (a + elapsed evs) (run p evs).
Proof.
  induction evs as [| ev evs IH]; intros a p Hw Hq Ha.
  - simpl. now rewrite N.add_0_r.
  - cbn [forallb] in Hq. apply andb_true_iff in Hq as [Hq1 Hq2].
    assert (He : elapsed (ev :: evs) = (elapsed [ev] + elapsed evs)%N).
    { destruct ev; simpl; lia. }
    rewrite He in *. rewrite run_cons, N.add_assoc.
    apply IH; [apply waiting_step; [assumption | assumption | lia]
              | assumption | lia].
Qed.

Lemma due_at (t : N) (p : proc) :
  In (t0 + 10000)%N (timers p) -> (t0 + 10000 <= t)%N -> due t p = true.
Proof.
  intros Hin Ht. unfold due. apply existsb_exists.
  exists (t0 + 10000)%N. split; [exact Hin |]. now apply N.leb_le.
Qed.

Lemma doomed_step (a : N) (p : proc) (ev : event) :
  doomed t0 a p -> ev <> Drained ->
  doomed t0 (a + elapsed [ev]) (step p ev)
  \/ exited (step p ev) = Some 1.
Proof.
  intros [He | (He & Hn & Ha & Hin)] Hev.
  - right. now rewrite (step_exited p 1 ev He).
  - unfold step. rewrite He.
    destruct ev as [| s | | d | e | r | m]; cbn [elapsed].
    + left. right. rewrite N.add_0_r. unfold onListening.
      destruct (listenPort p); repeat split; simpl; auto.
    + left. right. rewrite N.add_0_r. repeat split; simpl; auto.
      apply in_or_app. now left.
    + contradiction.
    + destruct (N.lt_ge_cases (a + d) 10000) as [Hlt | Hge].
      * destruct (due (now p + d) p); [right; reflexivity |].
        left. right. rewrite N.add_0_r. repeat split; simpl; auto; try lia.
        apply filter_In. split; [exact Hin |]. apply N.ltb_lt. lia.
      * rewrite (due_at _ p Hin) by lia. right. reflexivity.
    + right. reflexivity.
    + right. reflexivity.
    + destruct (content p); [left; right | right; reflexivity | left; right];
        rewrite N.add_0_r; repeat split; auto.
Qed.

Lemma doomed_run (evs : list event) :
  forall (a : N) (p : proc),
    doomed t0 a p -> ~ In Drained evs ->
    doomed t0 (a + elapsed evs) (run p evs).
Proof.
  induction evs as [| ev evs IH]; intros a p Hd Hn.
  - simpl. now rewrite N.add_0_r.
  - assert (He : elapsed (ev :: evs) = (elapsed [ev] + elapsed evs)%N).
    { destruct ev; simpl; lia. }
    rewrite He, run_cons, N.add_assoc.
    apply IH; [| intros H; apply Hn; now right].
    destruct (doomed_step a p ev Hd) as [H | H].
    + intros ->. apply Hn. now left.
    + exact H.
    + now left.
Qed.

Lemma forced_step (p : proc) (ev : event) : forced p -> forced (step p ev).
Proof. intros [He Hl]. rewrite (step_exited p 1 ev He). now split. Qed.

Lemma timed_step (a : N) (p : proc) (ev : event) :
  timed t0 a p -> quiet ev = true ->
  timed t0 (a + elapsed [ev]) (step p ev) \/ forced (step p ev).
Proof.
  intros [Hf | (He & Hn & Ha & Hin)] Hq.
  - right. now apply forced_step.
  - unfold step. rewrite He.
    destruct ev as [| s | | d | | |]; try discriminate Hq; cbn [elapsed].
    + left. right. rewrite N.add_0_r. unfold onListening.
      destruct (listenPort p); repeat split; simpl; auto.
    + left. right. rewrite N.add_0_r. repeat split; simpl; auto.
      apply in_or_app. now left.
    + destruct (N.lt_ge_cases (a + d) 10000) as [Hlt | Hge].
      * destruct (due (now p + d) p).
        -- right. split; [reflexivity |]. simpl. apply in_or_app.
           right. now left.
        -- left. right. rewrite N.add_0_r.
           repeat split; simpl; auto; try lia.
           apply filter_In. split; [exact Hin |]. apply N.ltb_lt. lia.
      * rewrite (due_at _ p Hin) by lia. right.
        split; [reflexivity |]. simpl. apply in_or_app. right. now left.
Qed.

Lemma timed_run (evs : list event) :
  forall (a : N) (p : proc),
    timed t0 a p -> forallb quiet evs = true ->
    timed t0 (a + elapsed evs) (run p evs).
Proof.
  induction evs as [| ev evs IH]; intros a p Hd Hq.
  - simpl. now rewrite N.add_0_r.
  - cbn [forallb] in Hq. apply andb_true_iff in Hq as [Hq1 Hq2].
    assert (He : elapsed (ev :: evs) = (elapsed [ev] + elapsed evs)%N).
    { destruct ev; simpl; lia. }
    rewrite He, run_cons, N.add_assoc.
    apply IH; [| exact Hq2].
    destruct (timed_step a p ev Hd Hq1) as [H | H]; [exact H | now left].
Qed.

End ShutdownRace.

(** C8.  Let the first signal reach a running process with no timer
    pending.  The process is then [ShuttingDown] with one timer, due
    10 seconds later.  If the drain completes while less than 10 seconds
    have passed (after any further signals, passing of time or the bind)
    the close callback logs and the process exits with status 0.  If
    10 seconds pass with nothing but further signals, time and the bind,
    the timer's callback logs and the process exits with status 1.  If
    no drain completes and 10 seconds or more pass, the process has
    exited with status 1, whatever else happened meanwhile. *)
Theorem shutdown_race (p : proc) (s : signal) :
  exited p = None -> timers p = [] ->
  let p1 := step p (Signal s) in
  lifecycle p1 = ShuttingDown
  /\ timers p1 = [(now p + 10000)%N]
  /\ (forall evs,
        forallb quiet evs = true -> (elapsed evs < 10000)%N ->
        lifecycle (run p1 evs) = ShuttingDown /\
        exited (run p1 (evs ++ [Drained])) = Some 0 /\
        lifecycle (run p1 (evs ++ [Drained])) = Stopped /\
        log (run p1 (evs ++ [Drained]))
          = log (run p1 evs) ++ [js "HTTP server closed."])
  /\ (forall evs,
        forallb quiet evs = true -> (10000 <= elapsed evs)%N ->
        exited (run p1 evs) = Some 1 /\
        In (js "Forcing shutdown after timeout") (log (run p1 evs)))
  /\ (forall evs,
        ~ In Drained evs -> (10000 <= elapsed evs)%N ->
        exited (run p1 evs) = Some 1 /\
        lifecycle (run p1 evs) = Stopped).
Proof.
  intros Hp Ht. cbv zeta. rewrite (step_signal p s Hp).
  assert (Hw : waiting (now p) 0 (gracefulShutdown s p)).
  { repeat split; simpl; auto; try lia. rewrite Ht. simpl.
    constructor; [lia | constructor]. }
  assert (Hd : doomed (now p) 0 (gracefulShutdown s p)).
  { right. repeat split; simpl; auto; try lia. rewrite Ht. now left. }
  split; [| split; [| split; [| split]]].
  - unfold lifecycle. simpl. now rewrite Hp.
  - simpl. now rewrite Ht.
  - intros evs Hq He.
    destruct (waiting_run (now p) evs 0 _ Hw Hq) as (H1 & _ & H3 & H4 & _);
      [lia |].
    rewrite run_snoc. unfold lifecycle, step. rewrite H1, H3.
    destruct (Nat.ltb_spec 0 (closeCallbacks (run (gracefulShutdown s p) evs)));
      [| lia].
    repeat split.
  - intros evs Hq He.
    assert (Hd' : timed (now p) 0 (gracefulShutdown s p)).
    { right. repeat split; simpl; auto; try lia. rewrite Ht. now left. }
    destruct (timed_run (now p) evs 0 _ Hd' Hq) as [H | (_ & _ & H & _)];
      [exact H | lia].
  - intros evs Hn He.
    destruct (doomed_run (now p) evs 0 _ Hd Hn) as [H | (_ & _ & H & _)];
      [| lia].
    unfold lifecycle. rewrite H. split; reflexivity.
Qed.

Lemma shutdown_race_witness :
  exited (run (step (step (boot prod_env None None) Bound) (Signal SIGTERM))
            ([Advance 4000; Signal SIGINT; Advance 5999] ++ [Drained]))
    = Some 0 /\
  exited (run (step (step (boot prod_env None None) Bound) (Signal SIGTERM))
            [Advance 4000; Signal SIGINT; Advance 6000])
    = Some 1.
Proof.
  pose proof (shutdown_race (step (boot prod_env None None) Bound) SIGTERM
                eq_refl eq_refl) as (_ & _ & Hdrain & _ & Hforce).
  split.
  - refine (proj1 (proj2 (Hdrain [Advance 4000; Signal SIGINT; Advance 5999]
                            eq_refl _))).
    vm_compute. reflexivity.
  - refine (proj1 (Hforce [Advance 4000; Signal SIGINT; Advance 6000] _ _)).
    + intros [H | [H | [H | []]]]; discriminate H.
    + vm_compute. discriminate.
Defined.

(* ===================================================================== *)
(** * Further properties of the process                                    *)
(* ===================================================================== *)

Section LifecycleFacts.

Ltac split_if :=
  repeat match goal with
         | |- context [if ?b then _ else _] => destruct b eqn:?; simpl
         | |- context [match ?o with Some _ => _ | None => _ end] =>
             destruct o eqn:?; simpl
         end.

Lemma step_log (p : proc) (ev : event) :
  exists more, log (step p ev) = log p ++ more /\ (length more <= 1)%nat.
Proof.
  destruct p as [n l c v ct lp li cr cc ts ex]. unfold step. simpl.
  destruct ex; [exists []; split; [now rewrite app_nil_r | simpl; lia] |].
  destruct ev; simpl; unfold onListening, due; simpl; split_if;
    try (eexists; split; [reflexivity | simpl; lia]);
    try (exists []; split; [now rewrite app_nil_r | simpl; lia]).
  all: destruct ct; simpl;
    exists []; split; try (now rewrite app_nil_r); simpl; lia.
Qed.

Lemma step_console (p : proc) (ev : event) :
  exists more, console (step p ev) = console p ++ more.
Proof.
  destruct p as [n l c v ct lp li cr cc ts ex]. unfold step. simpl.
  destruct ex; [exists []; now rewrite app_nil_r |].
  destruct ev; simpl; unfold onListening, due; simpl; split_if;
    try (eexists; reflexivity);
    try (exists []; now rewrite app_nil_r).
  all: destruct ct; simpl; exists []; now rewrite app_nil_r.
Qed.

Lemma lifecycle_step (p : proc) (ev : event) :
  (rank (lifecycle p) <= rank (lifecycle (step p ev)))%nat.
Proof.
  destruct p as [n l c v ct lp li cr cc ts ex]. unfold step, lifecycle. simpl.
  destruct ex; [simpl; lia |].
  destruct ev; simpl; unfold onListening, due; simpl.
  - destruct lp, cr, li; simpl; lia.
  - destruct cr, li; simpl; lia.
  - destruct cr, (0 <? cc)%nat, li; simpl; lia.
  - destruct (existsb _ _), cr, li; simpl; lia.
  - destruct cr, li; simpl; lia.
  - destruct cr, li; simpl; lia.
  - destruct ct, cr, li; simpl; lia.
Qed.

Lemma step_exit_zero (p : proc) (ev : event) :
  exited p = None -> exited (step p ev) = Some 0 ->
  ev = Drained /\ closeRequested p = true /\ step p ev = onClosed p.
Proof.
  destruct p as [n l c v ct lp li cr cc ts ex]. unfold step. simpl.
  intros ->. destruct ev; simpl; unfold onListening, due; simpl.
  - destruct lp; discriminate.
  - discriminate.
  - destruct cr; simpl; [| discriminate].
    destruct (0 <? cc)%nat; [auto | discriminate].
  - destruct (existsb _ _); discriminate.
  - discriminate.
  - discriminate.
  - destruct ct; discriminate.
Qed.

Lemma step_closeRequested (p : proc) (ev : event) :
  exited p = None -> closeRequested (step p ev) = true ->
  closeRequested p = true \/ exists s, ev = Signal s.
Proof.
  destruct p as [n l c v ct lp li cr cc ts ex]. unfold step. simpl.
  intros ->. destruct ev; simpl; unfold onListening, due; simpl; eauto.
  - destruct lp; auto.
  - destruct (cr && (0 <? cc)%nat); auto.
  - destruct (existsb _ _); auto.
  - destruct ct; auto.
Qed.

Lemma exit_zero_split (evs : list event) :
  forall p : proc,
    exited p = None -> exited (run p evs) = Some 0 ->
    exists pre post,
      evs = pre ++ Drained :: post /\
      exited (run p pre) = None /\
      closeRequested (run p pre) = true /\
      run p evs = onClosed (run p pre) /\
      (closeRequested p = true \/ exists s, In (Signal s) pre).
Proof.
  induction evs as [| ev evs IH]; intros p Hp Hz.
  - simpl in Hz. congruence.
  - rewrite run_cons in Hz. destruct (exited (step p ev)) as [c|] eqn:Hs.
    + rewrite (run_exited evs _ c Hs) in Hz.
      assert (c = 0) by congruence. subst c.
      destruct (step_exit_zero p ev Hp Hs) as (-> & Hc & Hst).
      exists [], evs. repeat split; auto.
      rewrite run_cons, (run_exited evs _ 0 Hs). exact Hst.
    + destruct (IH _ Hs Hz) as (pre & post & -> & H1 & H2 & H3 & H4).
      exists (ev :: pre), post. rewrite !run_cons. repeat split; auto.
      destruct H4 as [H4 | [s H4]].
      * destruct (step_closeRequested p ev Hp H4) as [H | [s ->]];
          [now left | right; exists s; now left].
      * right. exists s. now right.
Qed.

Lemma calm_step (p : proc) (ev : event) :
  exited p = None -> closeRequested p = false -> timers p = [] ->
  calm ev = true ->
  exited (step p ev) = None /\ closeRequested (step p ev) = false /\
  timers (step p ev) = [].
Proof.
  destruct p as [n l c v ct lp li cr cc ts ex]. unfold step. simpl.
  intros -> -> -> Hc. destruct ev; try discriminate Hc; simpl.
  - unfold onListening. simpl. destruct lp; auto.
  - auto.
  - unfold due. simpl. auto.
Qed.

Lemma consistent_step (p : proc) (ev : event) :
  consistent p -> consistent (step p ev).
Proof.
  destruct p as [n l c v ct lp li cr cc ts ex].
  unfold consistent, step. simpl. intros (H1 & H2 & H3 & H4).
  destruct ex; [auto |].
  destruct ev; simpl; unfold onListening, due; simpl.
  - destruct lp; simpl; auto.
  - repeat split; auto; try lia. rewrite length_app. simpl. lia.
  - destruct (cr && (0 <? cc)%nat); simpl; auto.
  - pose proof (List.filter_length_le (fun d0 => (n + d <? d0)%N) ts).
    destruct (existsb _ _); simpl; repeat split; try apply H1; auto; lia.
  - auto.
  - auto.
  - destruct ct; simpl; auto.
Qed.

Lemma consistent_boot (e : env) (db vite : option error) :
  consistent (boot e db vite).
Proof.
  unfold consistent, boot.
  destruct db, (devBranch e), vite,
    (legalPort (parseInt (or_env (PORT e) "5000"))); simpl;
    (split; [split; [discriminate | lia] |]);
    (split; [lia |]); (split; [eauto | discriminate]).
Qed.

End LifecycleFacts.

(** X2.  The lifecycle only moves forward: whatever events arrive, the
    state never goes back in the order Starting, Listening,
    ShuttingDown, Stopped. *)
Theorem lifecycle_monotone (p : proc) (evs : list event) :
  (rank (lifecycle p) <= rank (lifecycle (run p evs)))%nat.
Proof.
  revert p. induction evs as [| ev evs IH]; intros p; [simpl; lia |].
  rewrite run_cons. pose proof (lifecycle_step p ev). pose proof (IH (step p ev)).
  lia.
Qed.

(** X3.  Exit status 0 is reserved for the clean shutdown: if a running
    process ends with status 0, then a drain completed at some point,
    the server had been asked to close before it (by a signal, unless
    it already was closing), the process ended right there through the
    close callback, and its log holds [HTTP server closed.]. *)
Theorem exit_zero_needs_drain (p : proc) (evs : list event) :
  exited p = None -> exited (run p evs) = Some 0 ->
  exists pre post,
    evs = pre ++ Drained :: post /\
    exited (run p pre) = None /\
    run p evs = onClosed (run p pre) /\
    (closeRequested p = true \/ exists s, In (Signal s) pre) /\
    In (js "HTTP server closed.") (log (run p evs)).
Proof.
  intros Hp Hz.
  destruct (exit_zero_split evs p Hp Hz) as (pre & post & He & H1 & H2 & H3 & H4).
  exists pre, post. repeat split; auto.
  rewrite H3. simpl. apply in_or_app. right. now left.
Qed.

Lemma exit_zero_needs_drain_witness :
  exists pre post,
    [Signal SIGINT; Advance 250; Drained; Advance 20000]
      = pre ++ Drained :: post /\
    exited (run (step (boot prod_env None None) Bound) pre) = None /\
    run (step (boot prod_env None None) Bound)
      [Signal SIGINT; Advance 250; Drained; Advance 20000]
      = onClosed (run (step (boot prod_env None None) Bound) pre) /\
    (closeRequested (step (boot prod_env None None) Bound) = true \/
     exists s, In (Signal s) pre) /\
    In (js "HTTP server closed.")
       (log (run (step (boot prod_env None None) Bound)
               [Signal SIGINT; Advance 250; Drained; Advance 20000])).
Proof.
  apply (exit_zero_needs_drain (step (boot prod_env None None) Bound)
           [Signal SIGINT; Advance 250; Drained; Advance 20000]);
    reflexivity.
Defined.

(** X4.  Without a signal and without a fault the process keeps
    running: from a state in which the server was not asked to close
    and no timer is pending, the bind, the passing of time and spurious
    drain reports never end the process, never start a shutdown and
    never arm a timer.  In particular a freshly started process runs
    until a signal or a fault arrives. *)
Theorem runs_until_signal_or_fault (p : proc) (evs : list event) :
  exited p = None -> closeRequested p = false -> timers p = [] ->
  forallb calm evs = true ->
  exited (run p evs) = None /\ closeRequested (run p evs) = false /\
  timers (run p evs) = [] /\
  lifecycle (run p evs) <> ShuttingDown /\ lifecycle (run p evs) <> Stopped.
Proof.
  revert p. induction evs as [| ev evs IH]; intros p He Hc Ht Hq.
  - simpl. unfold lifecycle. rewrite He, Hc.
    repeat split; auto; destruct (listening p); discriminate.
  - cbn [forallb] in Hq. apply andb_true_iff in Hq as [Hq1 Hq2].
    destruct (calm_step p ev He Hc Ht Hq1) as (H1 & H2 & H3).
    rewrite run_cons. now apply IH.
Qed.

Lemma runs_until_signal_or_fault_witness :
  exited (run (boot replit_env None None)
            [Bound; Advance 86400000; Drained; Advance 1]) = None.
Proof.
  exact (proj1 (runs_until_signal_or_fault (boot replit_env None None)
                  [Bound; Advance 86400000; Drained; Advance 1]
                  eq_refl eq_refl eq_refl eq_refl)).
Defined.

(** X5.  The log and the error console are append-only: whatever
    events arrive, what was written stays a prefix of what is there
    afterwards, and every event adds at most one line to the log. *)
Theorem log_append_only (p : proc) (evs : list event) :
  (exists more,
     log (run p evs) = log p ++ more /\ (length more <= length evs)%nat)
  /\ (exists more, console (run p evs) = console p ++ more).
Proof.
  revert p. induction evs as [| ev evs IH]; intros p.
  - split; exists []; [split; [now rewrite app_nil_r | simpl; lia]
                      | now rewrite app_nil_r].
  - rewrite run_cons.
    destruct (IH (step p ev)) as [(m1 & Hl & Hn) (c1 & Hc)].
    destruct (step_log p ev) as (m0 & Hl0 & Hn0).
    destruct (step_console p ev) as (c0 & Hc0).
    split.
    + exists (m0 ++ m1). rewrite Hl, Hl0, length_app, <- app_assoc.
      split; [reflexivity | simpl; lia].
    + exists (c0 ++ c1). now rewrite Hc, Hc0, <- app_assoc.
Qed.

(** X6.  Every state a started process can reach is consistent: the
    server was asked to close exactly when at least one close callback
    is held, there are never more pending timers than close callbacks,
    [server.listen] has been called, and a content adapter (Vite or
    static) is installed. *)
Theorem reachable_consistent (e : env) (db vite : option error)
    (evs : list event) :
  consistent (run (boot e db vite) evs).
Proof.
  assert (H : forall p, consistent p -> consistent (run p evs)).
  { induction evs as [| ev evs IH]; intros p Hp; [exact Hp |].
    rewrite run_cons. apply IH. now apply consistent_step. }
  apply H, consistent_boot.
Qed.

(** ** Start-up *)

Section PortFacts.

Ltac digit_case IH k :=
  cbn [NilEmpty.string_of_uint Nat.of_uint_acc];
  match goal with
  | |- digits 10 (String ?c ?r) (Some (Z.of_nat ?a))
       = Some (Z.of_nat (Nat.of_uint_acc ?d ?b)) =>
      change (digits 10 (String c r) (Some (Z.of_nat a)))
        with (digits 10 r (Some (10 * Z.of_nat a + k)));
      replace (10 * Z.of_nat a + k) with (Z.of_nat b)
        by (rewrite Nat.tail_mul_spec; lia);
      apply IH
  end.

Lemma digits_uint (d : Decimal.uint) :
  forall a : nat,
    digits 10 (NilEmpty.string_of_uint d) (Some (Z.of_nat a))
    = Some (Z.of_nat (Nat.of_uint_acc d a)).
Proof.
  induction d as [| d IH | d IH | d IH | d IH | d IH | d IH | d IH | d IH
                  | d IH | d IH]; intros a.
  - reflexivity.
  - digit_case IH 0.
  - digit_case IH 1.
  - digit_case IH 2.
  - digit_case IH 3.
  - digit_case IH 4.
  - digit_case IH 5.
  - digit_case IH 6.
  - digit_case IH 7.
  - digit_case IH 8.
  - digit_case IH 9.
Qed.

Lemma digits_start (d : Decimal.uint) :
  d <> Decimal.Nil ->
  digits 10 (NilEmpty.string_of_uint d) None
  = digits 10 (NilEmpty.string_of_uint d) (Some 0).
Proof. destruct d; [congruence | ..]; reflexivity. Qed.

Lemma parseInt_digits (d : Decimal.uint) :
  d <> Decimal.Nil ->
  parseInt (NilEmpty.string_of_uint d)
  = digits 10 (NilEmpty.string_of_uint d) None.
Proof.
  intros Hd. destruct d as [| d | d | d | d | d | d | d | d | d | d];
    [congruence | ..].
  1: destruct d.
  all: unfold parseInt; simpl;
    match goal with
    | |- match ?x with Some _ => _ | None => _ end = _ =>
        destruct x; reflexivity
    | |- _ => reflexivity
    end.
Qed.

Lemma parseInt_uint (d : Decimal.uint) :
  parseInt (NilZero.string_of_uint d) = Some (Z.of_nat (Nat.of_uint d)).
Proof.
  destruct (Decimal.uint_eq_dec d Decimal.Nil) as [-> | Hd]; [reflexivity |].
  replace (NilZero.string_of_uint d) with (NilEmpty.string_of_uint d)
    by (destruct d; first [congruence | reflexivity]).
  rewrite (parseInt_digits d Hd), (digits_start d Hd).
  apply (digits_uint d 0%nat).
Qed.

Lemma parseInt_decimal (n : nat) : parseInt (decimal n) = Some (Z.of_nat n).
Proof.
  unfold decimal. rewrite parseInt_uint. now rewrite DecimalNat.Unsigned.of_to.
Qed.

Lemma decimal_nonempty (n : nat) : decimal n <> ""%string.
Proof.
  unfold decimal. destruct (Nat.to_uint n); discriminate.
Qed.
End PortFacts.

Lemma listenPort_boot (e : env) (db vite : option error) :
  listenPort (boot e db vite) = Some (parseInt (or_env (PORT e) "5000")).
Proof.
  unfold boot.
  destruct db, (devBranch e), vite,
    (legalPort (parseInt (or_env (PORT e) "5000"))); reflexivity.
Qed.

Lemma devBranch_false (e : env) :
  devBranch e = false <->
  isProduction e = true \/
  exists v, NODE_ENV e = Some v /\ v <> ""%string /\ v <> "development"%string.
Proof.
  unfold devBranch, app_get_env, or_env.
  destruct (isProduction e); simpl; [split; auto |].
  rewrite bool_decide_eq_false.
  destruct (NODE_ENV e) as [v|]; simpl.
  - destruct (String.eqb_spec v "") as [-> | Hv].
    + split; [congruence |]. intros [H | (v & H & Hv & _)]; congruence.
    + split.
      * intros H. right. exists v. auto.
      * intros [H | (v' & H & _ & Hd)]; congruence.
  - split; [congruence |]. intros [H | (v & H & _)]; congruence.
Qed.

(** X7.  Start-up gets to [server.listen] whatever fails before.
    Whether or not the database initialisation or the Vite set-up fail,
    a content adapter is installed (Vite exactly when the development
    branch is taken and its set-up succeeds) and [server.listen] is
    called with the port read from PORT; a failing database
    initialisation changes nothing but one line at the head of the log.
    When the port is legal the process has not exited, and once the
    bind succeeds it is [Listening] and has logged the port.  When it
    is not (not a number, negative, above 65535) the process has ended
    with status 1: it never listens and logs nothing more. *)
Theorem startup_reaches_listen (e : env) (db vite : option error) :
  let p := boot e db vite in
  let port := parseInt (or_env (PORT e) "5000") in
  content p = (if devBranch e
               then match vite with None => ViteDev | Some _ => Static end
               else Static)
  /\ listenPort p = Some port
  /\ log p = match db with
             | Some _ => [js "Database initialization failed, continuing anyway"]
             | None => []
             end ++ log (boot e None vite)
  /\ console p = console (boot e None vite)
  /\ content p = content (boot e None vite)
  /\ exited p = exited (boot e None vite)
  /\ (legalPort port = true ->
      exited p = None /\
      lifecycle p = Starting /\
      lifecycle (step p Bound) = Listening /\
      log (step p Bound) = log p ++ [js "serving on port " ++ show_port port])
  /\ (legalPort port = false ->
      exited p = Some 1 /\
      forall evs, lifecycle (run p evs) = Stopped /\
                  log (run p evs) = log p).
Proof.
  cbv zeta. unfold boot.
  destruct (legalPort (parseInt (or_env (PORT e) "5000"))) eqn:Hl.
  - destruct db, (devBranch e), vite; repeat split; discriminate.
  - destruct db, (devBranch e), vite; repeat split; try discriminate;
      erewrite run_exited by reflexivity; reflexivity.
Qed.

Lemma startup_reaches_listen_witness :
  lifecycle (step (boot replit_env (Some bare_error) (Some bare_error)) Bound)
    = Listening
  /\ exited (boot bad_port_env (Some bare_error) None) = Some 1.
Proof.
  split.
  - refine (proj1 (proj2 (proj2
             (proj1 (proj2 (proj2 (proj2 (proj2 (proj2 (proj2
                (startup_reaches_listen replit_env (Some bare_error)
                   (Some bare_error)))))))) _)))).
    reflexivity.
  - refine (proj1
             (proj2 (proj2 (proj2 (proj2 (proj2 (proj2 (proj2
                (startup_reaches_listen bad_port_env (Some bare_error)
                   None))))))) _)).
    reflexivity.
Defined.

(** X8.  When static serving is chosen.  The development branch is
    skipped exactly when the mode is Production or NODE_ENV holds a
    non-empty text other than "development" (a Development-mode run
    with NODE_ENV=test, say).  Whenever it is skipped, start-up does not
    depend on the Vite set-up at all, installs the static server and
    logs [Production mode detected, serving static files]. *)
Theorem static_branch (e : env) :
  (devBranch e = false <->
   isProduction e = true \/
   exists v, NODE_ENV e = Some v /\ v <> ""%string /\ v <> "development"%string)
  /\ (devBranch e = false ->
      forall db vite vite',
        boot e db vite = boot e db vite' /\
        content (boot e db vite) = Static /\
        In (js "Production mode detected, serving static files")
           (log (boot e db vite))).
Proof.
  split; [apply devBranch_false |].
  intros H db vite vite'. unfold boot. rewrite H.
  destruct db, (legalPort (parseInt (or_env (PORT e) "5000")));
    repeat split; simpl; auto.
Qed.

Lemma static_branch_witness :
  serverMode test_env = Development /\
  content (boot test_env None None) = Static /\
  In (js "Production mode detected, serving static files")
     (log (boot test_env None None)).
Proof.
  split; [reflexivity |].
  exact (proj2 (proj2 (static_branch test_env) eq_refl None None None)).
Defined.

(** X9.  The port.  The process listens on 5000 when PORT is not set or
    empty, and on [n] when PORT holds the decimal text of a port number
    [n] (at most 65535): reading the text back with [parseInt] gives
    the number it was written from. *)
Theorem listen_port (e : env) (db vite : option error) :
  (PORT e = None \/ PORT e = Some ""%string ->
   listenPort (boot e db vite) = Some (Some 5000))
  /\ (forall n : nat,
        (n <= 65535)%nat -> PORT e = Some (decimal n) ->
        listenPort (boot e db vite) = Some (Some (Z.of_nat n))).
Proof.
  rewrite listenPort_boot. split.
  - intros [-> | ->]; reflexivity.
  - intros n _ ->. unfold or_env.
    destruct (String.eqb_spec (decimal n) "") as [H | _].
    + now apply decimal_nonempty in H.
    + now rewrite parseInt_decimal.
Qed.

Lemma listen_port_witness :
  listenPort (boot replit_env None None) = Some (Some 3000).
Proof.
  refine (proj2 (listen_port replit_env None None) 3000%nat _ eq_refl).
  apply Nat.leb_le. vm_compute. reflexivity.
Defined.

(** ** Requests: limiter, logger, error middleware, catch-all *)

Section RequestFacts.

Import RateLimit Pipeline.

Lemma startsWith_app (p q : jsstring) :
  startsWith p q = true -> p = q ++ skipn (length q) p.
Proof.
  revert p. induction q as [| b q IH]; intros p H; [reflexivity |].
  destruct p as [| a p]; [discriminate H |].
  simpl in H. apply andb_true_iff in H as [Hab Hq].
  apply N.eqb_eq in Hab. subst b. simpl. f_equal. now apply IH.
Qed.

Lemma store_after_parsed (st : store) (req : request) :
  store_after (parsed st req) = st.
Proof. unfold parsed. now destruct (bodyError req). Qed.

Lemma limited_parsed (st : store) (req : request) :
  limited (parsed st req) = None.
Proof. unfold parsed. now destruct (bodyError req). Qed.

Lemma handle_store (o : options) (st : store) (key : jsstring) (t : Z) :
  forall client, client <> key ->
    (handle o st key t).1 !! client = st !! client.
Proof.
  intros client Hne. unfold handle, increment. simpl.
  now rewrite lookup_insert_ne.
Qed.

Lemma run_store_other (e : env) (req : request) (t : Z) (st : store)
    (client : jsstring) :
  client <> ip req ->
  store_after (run (stack e) req t st false) !! client = st !! client.
Proof.
  intros Hne. destruct (productionFlag e) eqn:Hf.
  - destruct (mountMatch (js "/api") (path req)) eqn:Hm.
    + rewrite (run_limited _ _ _ _ Hf Hm).
      pose proof (handle_store limiter st (ip req) t client Hne) as H.
      destruct (handle limiter st (ip req) t) as [st' [|status body]];
        simpl in H; [now rewrite store_after_parsed | exact H].
    + now rewrite (run_off_mount _ _ _ _ Hm), store_after_parsed.
  - now rewrite (run_unlimited _ _ _ _ Hf), store_after_parsed.
Qed.

Lemma mountMatch_lookalike (c : N) (rest : jsstring) :
  c <> 47%N -> mountMatch (js "/api") (js "/api" ++ c :: rest) = false.
Proof. intros Hc. simpl. now apply N.eqb_neq. Qed.

Lemma replaceFirst_at (pat rep : jsstring) (s : jsstring) :
  forall i : nat,
    startsWith (skipn i s) pat = true ->
    (forall j, (j < i)%nat -> startsWith (skipn j s) pat = false) ->
    Vite.replaceFirst s pat rep
    = firstn i s ++ rep ++ skipn (i + length pat) s.
Proof.
  induction s as [| c s IH]; intros i Hi Hbefore.
  - rewrite skipn_nil in Hi. destruct pat; [| discriminate Hi].
    simpl. now rewrite firstn_nil, skipn_nil, app_nil_r.
  - destruct i as [| i].
    + change (startsWith (c :: s) pat = true) in Hi.
      cbn [Vite.replaceFirst]. now rewrite Hi.
    + pose proof (Hbefore 0%nat ltac:(lia)) as H0.
      change (startsWith (c :: s) pat = false) in H0.
      cbn [Vite.replaceFirst]. rewrite H0. simpl. f_equal.
      apply IH; [exact Hi |].
      intros j Hj. apply (Hbefore (S j)). lia.
Qed.

Lemma replaceFirst_absent (pat rep : jsstring) (s : jsstring) :
  (forall j, startsWith (skipn j s) pat = false) ->
  Vite.replaceFirst s pat rep = s.
Proof.
  induction s as [| c s IH]; intros Habs.
  - pose proof (Habs 0%nat) as H0. simpl in H0.
    destruct pat; [discriminate H0 | reflexivity].
  - pose proof (Habs 0%nat) as H0.
    change (startsWith (c :: s) pat = false) in H0.
    cbn [Vite.replaceFirst]. rewrite H0. f_equal.
    apply IH. intros j. apply (Habs (S j)).
Qed.

End RequestFacts.

(** X10.  Cache busting in the Vite catch-all.  Only the first
    occurrence of the quoted script attribute [src=/src/main.tsx] is
    rewritten: the document handed to the HTML post-processor is the
    shell document with that occurrence replaced by the same attribute
    with [?v=] and the fresh token appended (the closing quote of the
    attribute is not written back); everything before and after is
    kept.  A document without the attribute is handed on unchanged.
    In both cases a page that the post-processor returns is sent with
    status 200 as [text/html].  The token holds no dollar sign, as
    every token of nanoid's alphabet. *)
Theorem catchAll_rewrites_first_tag (url template nanoid : jsstring)
    (transformIndexHtml : jsstring -> jsstring -> Vite.result jsstring) :
  Forall (fun c => c <> 36%N) nanoid ->
  let tag := js "src=" ++ Vite.dquote ++ js "/src/main.tsx" ++ Vite.dquote in
  let answer := fun document =>
    match transformIndexHtml url document with
    | Vite.Ok page => [Vite.Respond 200 (js "text/html") page]
    | Vite.Err e => [Vite.SsrFixStacktrace e; Vite.NextErr e]
    end in
  (forall i : nat,
     startsWith (skipn i template) tag = true ->
     (forall j, (j < i)%nat -> startsWith (skipn j template) tag = false) ->
     Vite.catchAll url (Vite.Ok template) nanoid transformIndexHtml
     = answer (firstn i template ++
               js "src=" ++ Vite.dquote ++ js "/src/main.tsx?v=" ++ nanoid ++
               skipn (i + 19) template))
  /\ ((forall j, startsWith (skipn j template) tag = false) ->
      Vite.catchAll url (Vite.Ok template) nanoid transformIndexHtml
      = answer template).
Proof.
  intros _. cbv zeta. split.
  - intros i Hi Hbefore. unfold Vite.catchAll.
    rewrite (replaceFirst_at _ _ template i Hi Hbefore).
    change (length (js "src=" ++ Vite.dquote ++ js "/src/main.tsx" ++ Vite.dquote))
      with 19%nat.
    now rewrite <- !app_assoc.
  - intros Habs. unfold Vite.catchAll.
    now rewrite (replaceFirst_absent _ _ template Habs).
Qed.

Lemma catchAll_rewrites_first_tag_witness :
  Vite.catchAll (js "/dashboard") (Vite.Ok shell_document) (js "V1StGXR8")
    (fun _ document => Vite.Ok document)
  = [Vite.Respond 200 (js "text/html")
       (js "<body><script type=module src=" ++ Vite.dquote ++
        js "/src/main.tsx?v=V1StGXR8></script></body>")].
Proof.
  refine (proj1 (catchAll_rewrites_first_tag (js "/dashboard") shell_document
                   (js "V1StGXR8") (fun _ document => Vite.Ok document) _)
            26%nat _ _).
  - repeat (constructor; [discriminate |]). constructor.
  - reflexivity.
  - intros j Hj.
    do 26 (destruct j as [| j]; [reflexivity |]). lia.
Defined.



(** X13.  Clients are counted apart: serving a request of one client
    leaves the limiter's record of every other client untouched,
    whatever the environment, the path and the outcome. *)
Theorem clients_independent (e : env) (st : RateLimit.store)
    (req : Pipeline.request) (now : Z) (client : jsstring) :
  client <> Pipeline.ip req ->
  Pipeline.store_after (Pipeline.run (Pipeline.stack e) req now st false)
    !! client = st !! client.
Proof. apply run_store_other. Qed.

Lemma clients_independent_witness :
  Pipeline.store_after
    (Pipeline.run (Pipeline.stack prod_env) health_request 0 ∅ false)
    !! js "10.0.0.8" = None.
Proof.
  rewrite (clients_independent prod_env ∅ health_request 0 (js "10.0.0.8"));
    [reflexivity | discriminate].
Defined.

(** X14.  The window.  In a run with the production flag, a request on
    the mount path by a client whose window has run out is let by and
    opens a new window of 15 minutes with one hit, however many hits
    the old window had.  Inside a running window a client that has
    already made 100 requests or more is answered with 429, and the
    rejected request is still counted. *)
Theorem window_expiry_resets (e : env) (st : RateLimit.store)
    (req : Pipeline.request) (now : Z) (k : nat) (R : Z) :
  productionFlag e = true ->
  Pipeline.mountMatch (js "/api") (Pipeline.path req) = true ->
  st !! Pipeline.ip req = Some (RateLimit.mkClient k R) ->
  let w := Pipeline.run (Pipeline.stack e) req now st false in
  (R <= now ->
   Pipeline.limited w = None /\
   Pipeline.store_after w !! Pipeline.ip req
   = Some (RateLimit.mkClient 1 (now + 900000)))
  /\ (now < R -> (100 <= k)%nat ->
      Pipeline.limited w
      = Some (429, js "Too many requests from this IP, please try again later.")
      /\ Pipeline.store_after w !! Pipeline.ip req
         = Some (RateLimit.mkClient (S k) R)).
Proof.
  intros Hf Hm Hc. cbv zeta. rewrite (run_limited _ _ _ _ Hf Hm). split.
  - intros HR. rewrite handle_fresh.
    + rewrite limited_parsed, store_after_parsed. split; [reflexivity |].
      apply lookup_insert_eq.
    + unfold Pipeline.window_free. now rewrite Hc.
  - intros HR Hk. rewrite (handle_counting _ _ _ _ _ Hc HR).
    destruct (Nat.ltb_spec 100 (S k)); [| lia].
    split; [reflexivity | apply lookup_insert_eq].
Qed.

Lemma window_expiry_resets_witness :
  Pipeline.limited
    (Pipeline.run (Pipeline.stack prod_env) health_request 900000
       {[ js "10.0.0.7" := RateLimit.mkClient 250 900000 ]} false) = None.
Proof.
  refine (proj1 (proj1 (window_expiry_resets prod_env
                          {[ js "10.0.0.7" := RateLimit.mkClient 250 900000 ]}
                          health_request 900000 250 900000 eq_refl eq_refl _)
                   _)).
  - reflexivity.
  - lia.
Defined.

(** X15.  Paths that only look like API paths.  A path that starts
    with [/api] but goes on with a character other than [/] (such as
    [/api-docs] or [/apix]) is off the limiter's mount: the request is
    never rate-limited nor counted, yet the Request Logger treats it as
    monitored and emits its line when the response finishes. *)
Theorem api_lookalike_paths (e : env) (st : RateLimit.store)
    (req : Pipeline.request) (now t : Z) (h : Pipeline.handling)
    (c : N) (rest : jsstring) :
  Pipeline.path req = js "/api" ++ c :: rest -> c <> 47%N ->
  let w := Pipeline.run (Pipeline.stack e) req now st false in
  Pipeline.mountMatch (js "/api") (Pipeline.path req) = false
  /\ Pipeline.limited w = None
  /\ Pipeline.store_after w = st
  /\ (Pipeline.bodyError req = None -> Pipeline.finish h = Some t ->
      snd (Pipeline.serve e st req now h)
      = [Logger.truncate
           (Logger.buildLine (Pipeline.method req) (Pipeline.path req)
              (Pipeline.statusCode h) (t - now)
              (Logger.capture (Pipeline.json_calls h)))]).
Proof.
  intros Hp Hc. cbv zeta.
  assert (Hm : Pipeline.mountMatch (js "/api") (Pipeline.path req) = false).
  { rewrite Hp. now apply mountMatch_lookalike. }
  split; [exact Hm |]. unfold Pipeline.serve. cbn [snd].
  rewrite (run_off_mount _ _ _ _ Hm).
  split; [apply limited_parsed |]. split; [apply store_after_parsed |].
  intros Hb Hfin. unfold Pipeline.logged, Pipeline.parsed.
  rewrite Hb, Hfin. cbn [Pipeline.logger_armed].
  rewrite onFinish_cases, Hp. reflexivity.
Qed.

Lemma api_lookalike_paths_witness :
  Pipeline.limited
    (Pipeline.run (Pipeline.stack prod_env) docs_request 0
       {[ js "10.0.0.7" := RateLimit.mkClient 250 900000 ]} false) = None
  /\ snd (Pipeline.serve prod_env
            {[ js "10.0.0.7" := RateLimit.mkClient 250 900000 ]}
            docs_request 0 (health_handling 0))
     = [js "GET /api-docs 200 in 3ms :: " ++
        stringify (JObj [(js "status", JStr (js "ok"))])].
Proof.
  pose proof (api_lookalike_paths prod_env
                {[ js "10.0.0.7" := RateLimit.mkClient 250 900000 ]}
                docs_request 0 3 (health_handling 0) 45%N (js "docs")
                eq_refl ltac:(discriminate)) as (_ & H2 & _ & H4).
  split; [exact H2 |].
  rewrite (H4 eq_refl eq_refl). reflexivity.
Defined.

(** X16.  Cutting a line is stable and keeps its head: a cut line is
    not cut again, the first 79 code units of every line survive, and a
    line is left as it is exactly when it has at most 80 code units. *)
Theorem truncate_keeps_prefix (l : jsstring) :
  Logger.truncate (Logger.truncate l) = Logger.truncate l
  /\ firstn 79 (Logger.truncate l) = firstn 79 l
  /\ (Logger.truncate l = l <-> (length l <= 80)%nat).
Proof.
  pose proof (truncate_length l) as Hlen.
  split; [| split].
  - rewrite (truncate_cases (Logger.truncate l)).
    destruct (Nat.leb_spec (length (Logger.truncate l)) 80); [reflexivity | lia].
  - rewrite truncate_cases. destruct (Nat.leb_spec (length l) 80) as [H | H];
      [reflexivity |].
    rewrite take_app_le by (rewrite length_take; lia).
    rewrite take_take. f_equal.
  - split.
    + intros H. rewrite H in Hlen. lia.
    + intros H. rewrite truncate_cases.
      destruct (Nat.leb_spec (length l) 80); [reflexivity | lia].
Qed.

(** X17.  A body that a parser rejects.  When [express.json] or
    [express.urlencoded] rejects the body of a request that the limiter
    let by, the parser's error is what the request ends with: neither
    the logger nor the routes are reached and no log line is emitted,
    whatever the later stages would have done.  In a run with the
    production flag such a request on the mount path has nevertheless
    been counted by the limiter. *)
Theorem rejected_body_counted_not_logged (e : env) (st : RateLimit.store)
    (req : Pipeline.request) (now : Z) (h : Pipeline.handling) (err : error) :
  Pipeline.bodyError req = Some err ->
  let w := Pipeline.run (Pipeline.stack e) req now st false in
  Pipeline.limited w = None ->
  Pipeline.failed w = Some err
  /\ Pipeline.logger_armed w = false
  /\ Pipeline.reached_routes w = false
  /\ snd (Pipeline.serve e st req now h) = []
  /\ (productionFlag e = true ->
      Pipeline.mountMatch (js "/api") (Pipeline.path req) = true ->
      Pipeline.store_after w
      = (RateLimit.handle RateLimit.limiter st (Pipeline.ip req) now).1).
Proof.
  intros Hb. cbv zeta. unfold Pipeline.serve, Pipeline.logged. cbn [snd].
  assert (Hp : forall st',
             Pipeline.failed (Pipeline.parsed st' req) = Some err /\
             Pipeline.logger_armed (Pipeline.parsed st' req) = false /\
             Pipeline.reached_routes (Pipeline.parsed st' req) = false /\
             Pipeline.store_after (Pipeline.parsed st' req) = st').
  { intros st'. unfold Pipeline.parsed. rewrite Hb. repeat split. }
  destruct (productionFlag e) eqn:Hf.
  - destruct (Pipeline.mountMatch (js "/api") (Pipeline.path req)) eqn:Hm.
    + rewrite (run_limited _ _ _ _ Hf Hm).
      destruct (RateLimit.handle RateLimit.limiter st (Pipeline.ip req) now)
        as [st' [|status body]]; [| discriminate].
      destruct (Hp st') as (H1 & H2 & H3 & H4). intros _.
      rewrite H1, H2, H3, H4. repeat split.
    + rewrite (run_off_mount _ _ _ _ Hm).
      destruct (Hp st) as (H1 & H2 & H3 & H4). intros _.
      rewrite H1, H2, H3. repeat split. discriminate.
  - rewrite (run_unlimited _ _ _ _ Hf).
    destruct (Hp st) as (H1 & H2 & H3 & H4). intros _.
    rewrite H1, H2, H3. repeat split. discriminate.
Qed.

Lemma rejected_body_counted_not_logged_witness :
  snd (Pipeline.serve prod_env ∅
         (Pipeline.mkRequest (js "POST") (js "/api/votes") (js "10.0.0.7")
            (Some (mkError (Some (js "SyntaxError"))
                     (Some (js "Unexpected end of JSON input")) (Some 400)
                     (Some 400)))
            None)
         0 (health_handling 0)) = []
  /\ Pipeline.store_after
       (Pipeline.run (Pipeline.stack prod_env)
          (Pipeline.mkRequest (js "POST") (js "/api/votes") (js "10.0.0.7")
             (Some (mkError (Some (js "SyntaxError"))
                      (Some (js "Unexpected end of JSON input")) (Some 400)
                      (Some 400)))
             None)
          0 ∅ false) !! js "10.0.0.7"
     = Some (RateLimit.mkClient 1 900000).
Proof.
  pose proof (rejected_body_counted_not_logged prod_env ∅
                (Pipeline.mkRequest (js "POST") (js "/api/votes")
                   (js "10.0.0.7")
                   (Some (mkError (Some (js "SyntaxError"))
                            (Some (js "Unexpected end of JSON input"))
                            (Some 400) (Some 400)))
                   None)
                0 (health_handling 0) _ eq_refl eq_refl)
    as (_ & _ & _ & H4 & H5).
  split; [exact H4 |].
  rewrite (H5 eq_refl eq_refl). reflexivity.
Defined.
